(** * TBHWebsite, Backend2: the admin login flow and the image-field logic

  A shallow embedding of
  - [Backend2/middleware/authMiddleware.js] (the role gate),
  - [Backend2/routes/authRoutes.js] (one-time passcodes),
  - [Backend2/routes/eventRoutes.js] (create, update and delete of
    events, with their poster field) and the create handler of
    [Backend2/routes/teamRoutes.js],
  followed by the properties of these handlers.

  Every handler is a function from the request, the state it reads
  (the passcode object, the collection, the clock) and the answers of
  the services it awaits (mail, the document store, [JSON.parse], the
  token signer) to its response, the new state and the files it hands
  to [fs.unlink]. *)

From Stdlib Require Import ZArith String Ascii List Bool Lia.
From Stdlib Require Import Strings.Byte.
From stdpp Require Import base gmap strings list.
Import ListNotations.

Set Warnings "-register-all".

Local Open Scope string_scope.
Local Open Scope Z_scope.

(* ===================================================================== *)
(** ** JavaScript values, as far as the handlers look at them *)
(* ===================================================================== *)

Module Js.

(** A JSON-shaped value. Numbers are the integral ones; every test the
    handlers make on a number ([!v], [v !== "text"], [typeof v]) treats
    the others alike. *)
Inductive jsval : Type :=
| JUndefined
| JNull
| JBool (b : bool)
| JNum (n : Z)
| JStr (s : string)
| JArr (items : list jsval)
| JObj (props : list (string * jsval)).

(** [!!v] *)
Definition truthy (v : jsval) : bool :=
  match v with
  | JUndefined | JNull => false
  | JBool b => b
  | JNum n => negb (n =? 0)
  | JStr s => negb (String.eqb s EmptyString)
  | JArr _ | JObj _ => true
  end.

(** [v === s] for a string [s] *)
Definition is_str (v : jsval) (s : string) : bool :=
  match v with
  | JStr t => String.eqb t s
  | _ => false
  end.

(** [v === e] where [e] is an entry of [process.env]: a string, or
    undefined when the variable is not set. *)
Definition strict_eq_env (v : jsval) (e : option string) : bool :=
  match v, e with
  | JStr t, Some s => String.eqb t s
  | JUndefined, None => true
  | _, _ => false
  end.

Fixpoint assoc (k : string) (props : list (string * jsval)) : jsval :=
  match props with
  | [] => JUndefined
  | (k', v) :: rest => if String.eqb k' k then v else assoc k rest
  end.

(** [v.k] for a [v] that is neither undefined nor null (the handlers
    guard every read). No prototype of a primitive or of an array has
    the keys read here, so only an object can answer. *)
Definition get (v : jsval) (k : string) : jsval :=
  match v with
  | JObj props => assoc k props
  | _ => JUndefined
  end.

(** [typeof v === 'object' && v !== null] *)
Definition is_object (v : jsval) : bool :=
  match v with
  | JArr _ | JObj _ => true
  | _ => false
  end.

(** Truthiness of a form field: a string, or undefined when the field
    was not sent. *)
Definition present (f : option string) : bool :=
  match f with
  | Some s => negb (String.eqb s EmptyString)
  | None => false
  end.

(** [f === s] for a form field *)
Definition field_is (f : option string) (s : string) : bool :=
  match f with
  | Some t => String.eqb t s
  | None => false
  end.

End Js.

Import Js.

(* ===================================================================== *)
(** ** Backend2/middleware/authMiddleware.js *)
(* ===================================================================== *)

Module AuthMiddleware.

(** The part of the Express request a middleware of this file reads or
    writes: [req.headers.authorization] and [req.user]. *)
Record Request : Type := {
  authorization : option string;
  user : jsval
}.

(** What a middleware does with a request: answer it, or hand it on. *)
Inductive Outcome : Type :=
| Respond (status : Z) (message : string)
| Next (req : Request).

(** [roles.includes(v)]: SameValueZero against the strings of [roles]. *)
Definition includes (roles : list string) (v : jsval) : bool :=
  existsb (is_str v) roles.

Definition no_identity_message : string :=
  "Access denied: No user or role information found in token.".

(** [`Access denied: Requires one of the following roles: ${roles.join(', ')}`] *)
Definition role_not_allowed_message (roles : list string) : string :=
  "Access denied: Requires one of the following roles: "
    ++ String.concat ", " roles.

Definition authorizeRoles (roles : list string) (req : Request) : Outcome :=
  if negb (truthy (user req)) || negb (truthy (get (user req) "role")) then
    Respond 403 no_identity_message
  else if negb (includes roles (get (user req) "role")) then
    Respond 403 (role_not_allowed_message roles)
  else
    Next req.

(** The role of a claim is one of the allowed roles. *)
Definition allowed (roles : list string) (role : jsval) : Prop :=
  exists r, role = JStr r /\ In r roles.

(** *** [authenticateToken] *)

(** [s.split(sep)] for a separator of one character: the pieces between
    the separators, empty ones included. *)
Fixpoint split (sep : ascii) (s : string) : list string :=
  match s with
  | EmptyString => [EmptyString]
  | String c rest =>
      if Ascii.eqb c sep then EmptyString :: split sep rest
      else match split sep rest with
           | piece :: pieces => String c piece :: pieces
           | [] => [String c EmptyString]
           end
  end.

(** [jwt.verify(token, process.env.JWT_SECRET)]: the decoded payload, or
    [None] when it throws. *)
Record TokenWorld : Type := {
  jwt_verify : string -> option jsval
}.

Definition authenticateToken (w : TokenWorld) (req : Request) : Outcome :=
  match authorization req with
  | None => Respond 401 "No token, authorization denied"
  | Some authHeader =>
      if String.eqb authHeader EmptyString then
        Respond 401 "No token, authorization denied"
      else
        match nth_error (split " " authHeader) 1 with
        | None => Respond 401 "Token format invalid, authorization denied"
        | Some token =>
            if String.eqb token EmptyString then
              Respond 401 "Token format invalid, authorization denied"
            else
              match jwt_verify w token with
              | Some decoded =>
                  Next {| authorization := authorization req;
                          user := get decoded "user" |}
              | None => Respond 401 "Token is not valid or expired"
              end
        end
  end.

(** Two middlewares in a row, as a route lists them. *)
Definition and_then (first second : Request -> Outcome) (req : Request) : Outcome :=
  match first req with
  | Next req' => second req'
  | Respond status message => Respond status message
  end.

(** [authenticateToken, authorizeRoles(['admin'])], the guard of every
    admin route. *)
Definition admin_only (w : TokenWorld) : Request -> Outcome :=
  and_then (authenticateToken w) (authorizeRoles ["admin"]).

(** No space in a text. *)
Fixpoint spaceless (s : string) : bool :=
  match s with
  | EmptyString => true
  | String c rest => negb (Ascii.eqb c " ") && spaceless rest
  end.

End AuthMiddleware.

(* ===================================================================== *)
(** ** Backend2/routes/authRoutes.js *)
(* ===================================================================== *)

Module AuthRoutes.

(** [process.env], the two entries the OTP routes compare against. *)
Record Env : Type := {
  CLUB_EMAIL : option string;
  ADMIN_SECRET : option string
}.

(** [{ otp, expires }]; [expires] in milliseconds since the epoch. *)
Record OtpEntry : Type := {
  otp : string;
  expires : Z
}.

(** [otpStore]: the own properties of the object, keyed by email. *)
Abbreviation OtpStore := (gmap string OtpEntry).

Record Response : Type := {
  status : Z;
  message : string;
  token : option string
}.

Definition reply (st : Z) (msg : string) : Response :=
  {| status := st; message := msg; token := None |}.

(** Past the email guard [email] is identical to [process.env.CLUB_EMAIL],
    so [otpStore[email]] is the property named by the configured address
    (or by the text of undefined when the variable is not set). The
    handlers below read, write and delete this key in the map of the own
    properties of the object; that is what the object does for every
    address that satisfies [plain_address] below. *)
Definition store_key (env : Env) : string :=
  match CLUB_EMAIL env with
  | Some s => s
  | None => "undefined"
  end.

(** The names [Object.prototype] gives every plain object. Under one of
    them [otpStore[email]] finds the inherited member when there is no
    own property, and under [__proto__] an assignment sets the prototype
    and a delete removes nothing: there the store is not the map of own
    properties this file takes it for. *)
Definition object_prototype_members : list string :=
  ["__proto__"; "constructor"; "hasOwnProperty"; "isPrototypeOf";
   "propertyIsEnumerable"; "toLocaleString"; "toString"; "valueOf";
   "__defineGetter__"; "__defineSetter__"; "__lookupGetter__";
   "__lookupSetter__"].

(** The configured address is none of these names, as every address
    with an at sign is. *)
Definition plain_address (env : Env) : bool :=
  negb (existsb (String.eqb (store_key env)) object_prototype_members).

(** *** [crypto.randomBytes(3).toString('hex')] *)

Definition hex_digit (n : N) : ascii :=
  match n with
  | 0%N => "0" | 1%N => "1" | 2%N => "2" | 3%N => "3"
  | 4%N => "4" | 5%N => "5" | 6%N => "6" | 7%N => "7"
  | 8%N => "8" | 9%N => "9" | 10%N => "a" | 11%N => "b"
  | 12%N => "c" | 13%N => "d" | 14%N => "e" | _ => "f"
  end%char.

Fixpoint hex (bytes : list byte) : string :=
  match bytes with
  | [] => EmptyString
  | b :: rest =>
      let n := Byte.to_N b in
      String (hex_digit (n / 16)) (String (hex_digit (n mod 16)) (hex rest))
  end.

(** The three bytes [crypto.randomBytes(3)] returned. *)
Record Random3 : Type := { b0 : byte; b1 : byte; b2 : byte }.

Definition new_otp (r : Random3) : string := hex [b0 r; b1 r; b2 r].

(** [10 * 60 * 1000] *)
Definition otp_lifetime : Z := 10 * 60 * 1000.

(** *** POST /api/auth/generate-otp *)

Record GenerateBody : Type := {
  g_email : jsval;
  g_adminSecret : jsval
}.

(** What the outside gives one run of the handler: the random bytes,
    [Date.now()], and whether [transporter.sendMail] resolved. *)
Record GenerateWorld : Type := {
  random : Random3;
  g_now : Z;
  mail_sent : bool
}.

Definition generate_otp (env : Env) (w : GenerateWorld)
    (store : gmap string OtpEntry) (body : GenerateBody)
  : Response * gmap string OtpEntry :=
  if negb (strict_eq_env (g_email body) (CLUB_EMAIL env)) then
    (reply 400 "Invalid admin email.", store)
  else if negb (strict_eq_env (g_adminSecret body) (ADMIN_SECRET env)) then
    (reply 401 "Invalid Admin Secret Key.", store)
  else
    let otp := new_otp (random w) in
    let expires := g_now w + otp_lifetime in
    let store' := <[store_key env := {| otp := otp; expires := expires |}]> store in
    if mail_sent w then
      (reply 200 "OTP sent to admin email.", store')
    else
      (reply 500 "Failed to send OTP. Please check server logs.", store').

(** The entry a run writes once the email and the secret have passed. *)
Definition issued (w : GenerateWorld) : OtpEntry :=
  {| otp := new_otp (random w); expires := g_now w + otp_lifetime |}.

(** *** POST /api/auth/verify-otp *)

Record VerifyBody : Type := {
  v_email : jsval;
  v_otp : jsval
}.

(** [User.findOne({ email, role: 'admin' })]: a document, null, or a
    rejected promise. *)
Inductive FindResult : Type :=
| Found (id : string) (role : jsval)
| NotFound
| FindFailed.

(** [{ user: { id, role } }] *)
Record Payload : Type := {
  user_id : string;
  user_role : jsval
}.

(** What the outside gives one run: [Date.now()], the answer of the
    collection, and the signer ([None]: [jwt.sign] reports an error to
    its callback, which throws it inside the [try]). *)
Record VerifyWorld : Type := {
  v_now : Z;
  find_admin : FindResult;
  sign : Payload -> option string
}.

Definition invalid_or_expired : Response :=
  reply 400 "Invalid or expired OTP.".

Definition server_error : Response :=
  reply 500 "Server error during login.".

(** [!storedOtpData || storedOtpData.otp !== otp || Date.now() > storedOtpData.expires] *)
Definition otp_rejected (stored : option OtpEntry) (submitted : jsval) (now : Z) : bool :=
  match stored with
  | None => true
  | Some d => negb (is_str submitted (otp d)) || (expires d <? now)
  end.

Definition payload_of (r : FindResult) : Payload :=
  match r with
  | Found id role => {| user_id := id; user_role := role |}
  | _ => {| user_id := "admin_id_placeholder_from_authroutes";
            user_role := JStr "admin" |}
  end.

(** The [try] block: user lookup, payload, signature. *)
Definition login (w : VerifyWorld) : Response :=
  match find_admin w with
  | FindFailed => server_error
  | r =>
      match sign w (payload_of r) with
      | Some t => {| status := 200; message := "Logged in successfully!";
                     token := Some t |}
      | None => server_error
      end
  end.

Definition verify_otp (env : Env) (w : VerifyWorld)
    (store : gmap string OtpEntry) (body : VerifyBody)
  : Response * gmap string OtpEntry :=
  if negb (strict_eq_env (v_email body) (CLUB_EMAIL env)) then
    (reply 400 "Invalid admin email.", store)
  else
    let storedOtpData := store !! store_key env in
    if otp_rejected storedOtpData (v_otp body) (v_now w) then
      (invalid_or_expired, store)
    else
      let store' := delete (store_key env) store in
      (login w, store').

Definition logged_in (t : string) : Response :=
  {| status := 200; message := "Logged in successfully!"; token := Some t |}.

(** The store holds nothing but the entry of the configured address. *)
Definition only_admin_entry (env : Env) (store : gmap string OtpEntry) : Prop :=
  forall k, is_Some (store !! k) -> k = store_key env.

(** *** Runs of the two routes on the shared [otpStore] *)

Inductive Call : Type :=
| Generate (w : GenerateWorld) (body : GenerateBody)
| Verify (w : VerifyWorld) (body : VerifyBody).

Definition serve (env : Env) (store : gmap string OtpEntry) (c : Call)
  : gmap string OtpEntry :=
  match c with
  | Generate w body => snd (generate_otp env w store body)
  | Verify w body => snd (verify_otp env w store body)
  end.

(** The store after a sequence of requests, oldest first. *)
Definition serve_all (env : Env) (calls : list Call)
    (store : gmap string OtpEntry) : gmap string OtpEntry :=
  fold_left (serve env) calls store.

(** *** [sendOtpEmail] *)

Definition dq : string := String (ascii_of_nat 34) EmptyString.
Definition nl : string := String (ascii_of_nat 10) EmptyString.

(** The template literal of [html], line by line. *)
Definition otp_html (otp : string) : string :=
  nl ++ "            <div style=" ++ dq
     ++ "font-family: Arial, sans-serif; line-height: 1.6; color: #333;" ++ dq ++ ">"
  ++ nl ++ "                <h2 style=" ++ dq ++ "color: #0056b3;" ++ dq
     ++ ">Your One-Time Password (OTP)</h2>"
  ++ nl ++ "                <p>Hello Admin,</p>"
  ++ nl ++ "                <p>You have requested a One-Time Password (OTP) to log in to the Blockchain Club Admin Panel.</p>"
  ++ nl ++ "                <p>Your OTP is: <strong><span style=" ++ dq
     ++ "font-size: 24px; color: #d9534f;" ++ dq ++ ">" ++ otp ++ "</span></strong></p>"
  ++ nl ++ "                <p>This OTP is valid for <strong>10 minutes</strong>. Please do not share it with anyone.</p>"
  ++ nl ++ "                <p>If you did not request this, please ignore this email.</p>"
  ++ nl ++ "                <p>Thank you,</p>"
  ++ nl ++ "                <p>The Blockchain Club Team</p>"
  ++ nl ++ "            </div>"
  ++ nl ++ "        ".

(** [mailOptions] *)
Record Mail : Type := {
  from : option string;
  to : jsval;
  subject : string;
  html : string
}.

(** The message [sendOtpEmail(email, otp)] hands to the transporter. *)
Definition sendOtpEmail (env : Env) (email : jsval) (otp : string) : Mail :=
  {| from := CLUB_EMAIL env;
     to := email;
     subject := "Your Blockchain Club Admin Login OTP";
     html := otp_html otp |}.

(** The message a run of generate-otp hands to the transporter, if it
    gets that far. *)
Definition generate_otp_mail (env : Env) (w : GenerateWorld) (body : GenerateBody)
  : option Mail :=
  if negb (strict_eq_env (g_email body) (CLUB_EMAIL env)) then None
  else if negb (strict_eq_env (g_adminSecret body) (ADMIN_SECRET env)) then None
  else Some (sendOtpEmail env (g_email body) (new_otp (random w))).

(** [process.env.X] as a value. *)
Definition env_value (e : option string) : jsval :=
  match e with
  | Some s => JStr s
  | None => JUndefined
  end.

(** *** GET /api/auth/test-protected *)

(** The payload as [jwt.sign] serialises it. *)
Definition payload_json (p : Payload) : jsval :=
  JObj [("user", JObj [("id", JStr (user_id p)); ("role", user_role p)])].

Inductive ProtectedReply : Type :=
| Denied (status : Z) (message : string)
| Granted (message : string) (user : jsval).

Definition test_protected (w : AuthMiddleware.TokenWorld)
    (req : AuthMiddleware.Request) : ProtectedReply :=
  match AuthMiddleware.admin_only w req with
  | AuthMiddleware.Respond status message => Denied status message
  | AuthMiddleware.Next req' =>
      Granted "You have access to protected data!" (AuthMiddleware.user req')
  end.

(** A letter of the alphabet of [toString('hex')]. *)
Definition is_hex_digit (c : ascii) : bool :=
  existsb (Ascii.eqb c)
    ["0"; "1"; "2"; "3"; "4"; "5"; "6"; "7"; "8"; "9";
     "a"; "b"; "c"; "d"; "e"; "f"]%char.

Fixpoint all_chars (test : ascii -> bool) (s : string) : bool :=
  match s with
  | EmptyString => true
  | String c rest => test c && all_chars test rest
  end.

End AuthRoutes.

(* ===================================================================== *)
(** ** Files under Backend2/uploads *)
(* ===================================================================== *)

Module Uploads.

(** [req.file], as [upload.single] leaves it: multer has already written
    the file [filename] into the uploads directory. *)
Record File : Type := { filename : string }.

(** Files are named by their path below Backend2. [req.file.path] is the
    uploads directory joined with [filename], and [path.join(__dirname,
    '..', p)] in the route files is Backend2 joined with [p], so the file
    multer wrote and the file a stored value ['/uploads/<filename>']
    names are the same one. *)
Definition public_path (f : File) : string := "/uploads/" ++ filename f.

(** [fs.unlink(req.file.path, ...)] when [req.file] is there: the files
    handed to unlink. *)
Definition unlink_upload (file : option File) : list string :=
  match file with
  | Some f => [public_path f]
  | None => []
  end.

(** [deleteOldPoster] and [deleteOldPhoto] (the same function in both
    route files): the files handed to unlink. The path is kept as it is
    written in the document; [path.join] would resolve dot segments. *)
Definition deleteOldPoster (posterPath : option string) : list string :=
  match posterPath with
  | Some p =>
      if negb (String.eqb p EmptyString) && String.prefix "/uploads/" p then [p] else []
  | None => []
  end.

(** The uploads directory once the unlink calls have run. A failing
    unlink is only logged by the handlers; it is taken to succeed. *)
Definition disk_after (disk : gset string) (unlinked : list string) : gset string :=
  disk ∖ list_to_set unlinked.

(** The directory as the handler finds it: multer stored the upload. *)
Definition disk_with (disk : gset string) (file : option File) : gset string :=
  match file with
  | Some f => {[ public_path f ]} ∪ disk
  | None => disk
  end.

End Uploads.

Import Uploads.

(* ===================================================================== *)
(** ** Backend2/routes/eventRoutes.js *)
(* ===================================================================== *)

Module EventRoutes.

(** The text fields of the form ([req.body]); a field that was not sent
    is undefined. *)
Record Form : Type := {
  eventName : option string;
  eventDate : option string;
  eventTime : option string;
  eventLocation : option string;
  eventLink : option string;
  academicYear : option string;
  description : option string;
  speakers : option string;
  posterType : option string;
  posterValue : option string
}.

(** [poster: { type, value }] *)
Record Poster : Type := {
  ptype : option string;
  pvalue : option string
}.

(** The seven plain fields of a document; [d_eventDate] stands for
    [new Date(eventDate)]. *)
Record Scalars : Type := {
  d_eventName : option string;
  d_eventDate : option string;
  d_eventTime : option string;
  d_eventLocation : option string;
  d_eventLink : option string;
  d_academicYear : option string;
  d_description : option string
}.

(** A document of the collection, as the handlers hand it to the store.
    The casts the driver applies on the way in are not part of it. *)
Record EventDoc : Type := {
  scalars : Scalars;
  d_speakers : jsval;
  poster : Poster
}.

Record Response : Type := {
  status : Z;
  message : string
}.

(** What one run of a handler leaves behind. *)
Record Result : Type := {
  response : Response;
  db : gmap string EventDoc;
  unlinked : list string
}.

(** A rejected promise of the store. *)
Inductive DbError : Type :=
| CastObjectId
| ValidationError (messages : list string)
| OtherError.

Definition scalars_of (form : Form) : Scalars :=
  {| d_eventName := eventName form;
     d_eventDate := eventDate form;
     d_eventTime := eventTime form;
     d_eventLocation := eventLocation form;
     d_eventLink := eventLink form;
     d_academicYear := academicYear form;
     d_description := description form |}.

Definition placeholder : string :=
  "https://via.placeholder.com/300x200?text=No+Poster".

(** [Array.isArray(v) && v.every(s => typeof s === 'object' && s !== null)] *)
Definition array_of_objects (v : jsval) : bool :=
  match v with
  | JArr items => forallb is_object items
  | _ => false
  end.

(** The inner [try] around [JSON.parse]: the parsed list, or [None] when
    the parse or the shape test throws. [parsed] is what
    [JSON.parse(speakers)] returned ([None]: it threw). *)
Definition parse_speakers (parsed : option jsval) : option jsval :=
  match parsed with
  | Some v => if array_of_objects v then Some v else None
  | None => None
  end.

(** *** POST /api/events *)

(** What the outside gives one run: the result of [JSON.parse] on the
    speakers text, and the answer of [newEvent.save()] with the id the
    store gave the document. *)
Record PostWorld : Type := {
  post_parsed : option jsval;
  save_error : option DbError;
  new_id : string
}.

(** The [catch] of the create handler. *)
Definition post_catch (e : DbError) : Response :=
  match e with
  | ValidationError messages =>
      {| status := 400; message := String.concat ", " messages |}
  | _ => {| status := 500; message := "Server error saving event." |}
  end.

Definition post_event (w : PostWorld) (events : gmap string EventDoc)
    (file : option File) (form : Form) : Result :=
  let '(posterValue, actualPosterType) :=
    match file with
    | Some f => (Some ("/uploads/" ++ filename f), Some "upload")
    | None =>
        if field_is (posterType form) "url" && present (EventRoutes.posterValue form)
        then (EventRoutes.posterValue form, posterType form)
        else (Some placeholder, Some "url")
    end in
  if negb (present (eventName form)) || negb (present (eventDate form))
     || negb (present (academicYear form)) || negb (present (eventLocation form))
  then
    {| response := {| status := 400;
         message := "Event name, date, academic year, and location are required." |};
       db := events;
       unlinked := unlink_upload file |}
  else
    match (if present (speakers form) then parse_speakers (post_parsed w)
           else Some (JArr [])) with
    | None =>
        {| response := {| status := 400;
             message := "Invalid speakers format. Must be a valid JSON array." |};
           db := events;
           unlinked := [] |}
    | Some parsedSpeakers =>
        let newEvent :=
          {| scalars := scalars_of form;
             d_speakers := parsedSpeakers;
             poster := {| ptype := actualPosterType; pvalue := posterValue |} |} in
        match save_error w with
        | None =>
            {| response := {| status := 201; message := "Event saved successfully!" |};
               db := <[new_id w := newEvent]> events;
               unlinked := [] |}
        | Some e =>
            {| response := post_catch e; db := events; unlinked := [] |}
        end
    end.

(** *** PUT /api/events/:id *)

(** What the outside gives one run: whether [Event.findById] rejected,
    the result of [JSON.parse], whether [findByIdAndUpdate] rejected, and
    whether the driver leaves out the keys of [$set] whose value is
    undefined (it depends on its version). *)
Record PutWorld : Type := {
  find_error : option DbError;
  put_parsed : option jsval;
  update_error : option DbError;
  omit_undefined : bool
}.

(** The [catch] of the update handler. *)
Definition put_catch (e : DbError) : Response :=
  match e with
  | CastObjectId => {| status := 400; message := "Invalid Event ID format." |}
  | ValidationError messages =>
      {| status := 400; message := String.concat ", " messages |}
  | OtherError => {| status := 500; message := "Server error updating event." |}
  end.

(** [updateFields]: the seven plain fields always, [speakers] and
    [poster] only when the handler assigned them. *)
Record UpdateFields : Type := {
  u_scalars : Scalars;
  u_speakers : option jsval;
  u_poster : option Poster
}.

Definition set_scalar (omit : bool) (old new : option string) : option string :=
  match new with
  | Some v => Some v
  | None => if omit then old else None
  end.

(** [{ $set: updateFields }] on a stored document. *)
Definition apply_set (omit : bool) (old : EventDoc) (u : UpdateFields) : EventDoc :=
  let o := scalars old in
  let n := u_scalars u in
  {| scalars :=
       {| d_eventName := set_scalar omit (d_eventName o) (d_eventName n);
          d_eventDate := set_scalar omit (d_eventDate o) (d_eventDate n);
          d_eventTime := set_scalar omit (d_eventTime o) (d_eventTime n);
          d_eventLocation := set_scalar omit (d_eventLocation o) (d_eventLocation n);
          d_eventLink := set_scalar omit (d_eventLink o) (d_eventLink n);
          d_academicYear := set_scalar omit (d_academicYear o) (d_academicYear n);
          d_description := set_scalar omit (d_description o) (d_description n) |};
     d_speakers := match u_speakers u with Some s => s | None => d_speakers old end;
     poster := match u_poster u with Some p => p | None => poster old end |}.

(** The poster step of the update: the files handed to unlink and the
    [poster] key of [updateFields], or [None] for the 400 of an unknown
    poster type. *)
Definition poster_update (existingEvent : EventDoc) (file : option File)
    (form : Form) : option (list string * option Poster) :=
  match file with
  | Some f =>
      Some (deleteOldPoster (pvalue (poster existingEvent)),
            Some {| ptype := Some "upload";
                    pvalue := Some ("/uploads/" ++ filename f) |})
  | None =>
      if present (posterType form) then
        if field_is (posterType form) "url" then
          Some ((if field_is (ptype (poster existingEvent)) "upload"
                 then deleteOldPoster (pvalue (poster existingEvent))
                 else []),
                Some {| ptype := Some "url"; pvalue := posterValue form |})
        else None
      else Some ([], None)
  end.

Definition put_event (w : PutWorld) (events : gmap string EventDoc)
    (id : string) (file : option File) (form : Form) : Result :=
  match find_error w with
  | Some e => {| response := put_catch e; db := events; unlinked := [] |}
  | None =>
      match events !! id with
      | None =>
          {| response := {| status := 404; message := "Event not found." |};
             db := events;
             unlinked := unlink_upload file |}
      | Some existingEvent =>
          match (match speakers form with
                 | Some _ => option_map Some (parse_speakers (put_parsed w))
                 | None => Some None
                 end) with
          | None =>
              {| response := {| status := 400;
                   message := "Invalid speakers format for update." |};
                 db := events;
                 unlinked := [] |}
          | Some newSpeakers =>
              match poster_update existingEvent file form with
              | None =>
                  {| response := {| status := 400;
                       message := "Invalid poster type specified for update." |};
                     db := events;
                     unlinked := [] |}
              | Some (deleted, newPoster) =>
                  let updateFields :=
                    {| u_scalars := scalars_of form;
                       u_speakers := newSpeakers;
                       u_poster := newPoster |} in
                  match update_error w with
                  | Some e =>
                      {| response := put_catch e; db := events; unlinked := deleted |}
                  | None =>
                      {| response := {| status := 200;
                           message := "Event updated successfully!" |};
                         db := <[id := apply_set (omit_undefined w) existingEvent updateFields]> events;
                         unlinked := deleted |}
                  end
              end
          end
      end
  end.

(** *** DELETE /api/events/:id *)

Record DeleteWorld : Type := {
  del_find_error : option DbError;
  delete_error : option DbError
}.

(** The [catch] of the delete handler. *)
Definition delete_catch (e : DbError) : Response :=
  match e with
  | CastObjectId => {| status := 400; message := "Invalid Event ID format." |}
  | _ => {| status := 500; message := "Server error deleting event." |}
  end.

Definition delete_event (w : DeleteWorld) (events : gmap string EventDoc)
    (id : string) : Result :=
  match del_find_error w with
  | Some e => {| response := delete_catch e; db := events; unlinked := [] |}
  | None =>
      match events !! id with
      | None =>
          {| response := {| status := 404; message := "Event not found" |};
             db := events;
             unlinked := [] |}
      | Some event =>
          let deleted :=
            if field_is (ptype (poster event)) "upload"
               && present (pvalue (poster event))
            then deleteOldPoster (pvalue (poster event))
            else [] in
          match delete_error w with
          | Some e =>
              {| response := delete_catch e; db := events; unlinked := deleted |}
          | None =>
              {| response := {| status := 200;
                   message := "Event deleted successfully!" |};
                 db := delete id events;
                 unlinked := deleted |}
          end
      end
  end.

(** *** Runs of the three routes on the collection *)

Inductive Call : Type :=
| Post (w : PostWorld) (file : option File) (form : Form)
| Put (w : PutWorld) (id : string) (file : option File) (form : Form)
| Delete (w : DeleteWorld) (id : string).

Definition serve (events : gmap string EventDoc) (c : Call) : Result :=
  match c with
  | Post w file form => post_event w events file form
  | Put w id file form => put_event w events id file form
  | Delete w id => delete_event w events id
  end.

(** The collection after a sequence of requests, oldest first. *)
Definition serve_all (calls : list Call) (events : gmap string EventDoc)
  : gmap string EventDoc :=
  fold_left (fun evs c => db (serve evs c)) calls events.

(** The document a request is about: the one the store names on a
    create, the one of the path on update and delete. *)
Definition target (c : Call) : string :=
  match c with
  | Post w _ _ => new_id w
  | Put _ id _ _ => id
  | Delete _ id => id
  end.

(** A poster as the handlers write one: of kind url, or of kind upload
    with ['/uploads/' + a file name] as its value. *)
Definition poster_as_written (p : Poster) : Prop :=
  ptype p = Some "url"
  \/ (ptype p = Some "upload"
      /\ exists name, pvalue p = Some ("/uploads/" ++ name)).

(** *** Notions used to state the properties *)

(** A poster of kind upload names a file below ['/uploads/']. *)
Definition upload_is_local (doc : EventDoc) : Prop :=
  ptype (poster doc) = Some "upload" ->
  exists p, pvalue (poster doc) = Some p /\ String.prefix "/uploads/" p = true.

Definition uploads_are_local (events : gmap string EventDoc) : Prop :=
  forall id doc, events !! id = Some doc -> upload_is_local doc.

(** The update got as far as its poster step: the document was found and
    the speakers, if sent, were a list of objects. *)
Definition reaches_poster_step (w : PutWorld) (events : gmap string EventDoc)
    (id : string) (form : Form) (existingEvent : EventDoc) : Prop :=
  find_error w = None
  /\ events !! id = Some existingEvent
  /\ (speakers form = None \/ is_Some (parse_speakers (put_parsed w))).

(** The rule as worded for an update that brings a file: the file the
    previous poster names is handed to unlink exactly when the previous
    kind was upload. *)
Definition deleted_iff_kind_upload (existingEvent : EventDoc) (r : Result) : Prop :=
  (exists p, pvalue (poster existingEvent) = Some p /\ In p (unlinked r))
  <-> ptype (poster existingEvent) = Some "upload".

End EventRoutes.

(* ===================================================================== *)
(** ** Backend2/routes/teamRoutes.js *)
(* ===================================================================== *)

Module TeamRoutes.

(** The fields of [req.body]. The display order and the two flags are
    kept as values, since the handlers look at their type: a multipart
    form gives them as text (or not at all: undefined), a JSON body can
    give a number or a boolean. The other fields are text, or undefined
    when they were not sent. *)
Record Form : Type := {
  name : option string;
  idNumber : option string;
  position : option string;
  academicYear : option string;
  displayOrder : jsval;
  linkedinId : option string;
  phoneNumber : option string;
  isPhoneNumberPublic : jsval;
  telegramLink : option string;
  isTelegramLinkPublic : jsval;
  photoType : option string;
  photoValue : option string
}.

(** [photo: { type, value }] *)
Record Photo : Type := {
  ptype : option string;
  pvalue : option string
}.

Record TeamMemberDoc : Type := {
  d_name : option string;
  d_idNumber : option string;
  photo : Photo;
  d_position : option string;
  d_academicYear : option string;
  d_displayOrder : Z;
  d_linkedinId : option string;
  d_phoneNumber : option string;
  d_isPhoneNumberPublic : bool;
  d_telegramLink : option string;
  d_isTelegramLinkPublic : bool
}.

Record Result : Type := {
  response : EventRoutes.Response;
  db : gmap string TeamMemberDoc;
  unlinked : list string
}.

Definition placeholder : string := "https://via.placeholder.com/150".

(** What the outside gives one run: the integer [parseInt(displayOrder)]
    returns ([None]: NaN), and the answer of [newTeamMember.save()]. *)
Record PostWorld : Type := {
  parsed_order : option Z;
  save_error : option EventRoutes.DbError;
  new_id : string
}.

(** [typeof displayOrder === 'number' ? displayOrder : (parseInt(displayOrder) || 99)],
    with [parsed] for what [parseInt(displayOrder)] returns. *)
Definition display_order (displayOrder : jsval) (parsed : option Z) : Z :=
  match displayOrder with
  | JNum n => n
  | _ =>
      match parsed with
      | Some n => if n =? 0 then 99 else n
      | None => 99
      end
  end.

(** [flag === 'true' || flag === true] *)
Definition public_flag (flag : jsval) : bool :=
  match flag with
  | JStr s => String.eqb s "true"
  | JBool b => b
  | _ => false
  end.

Definition post_catch (e : EventRoutes.DbError) : EventRoutes.Response :=
  match e with
  | EventRoutes.ValidationError messages =>
      {| EventRoutes.status := 400;
         EventRoutes.message := String.concat ", " messages |}
  | _ => {| EventRoutes.status := 500;
            EventRoutes.message := "Server error saving team member." |}
  end.

(** POST /api/team-members *)
Definition post_member (w : PostWorld) (members : gmap string TeamMemberDoc)
    (file : option File) (form : Form) : Result :=
  let '(photoValue, actualPhotoType) :=
    match file with
    | Some f => (Some ("/uploads/" ++ filename f), Some "upload")
    | None =>
        if field_is (photoType form) "url" && present (TeamRoutes.photoValue form)
        then (TeamRoutes.photoValue form, photoType form)
        else if field_is (photoType form) "import" && present (TeamRoutes.photoValue form)
        then (TeamRoutes.photoValue form, photoType form)
        else (Some placeholder, Some "url")
    end in
  if negb (present (name form)) || negb (present (position form))
     || negb (present (academicYear form))
  then
    {| response := {| EventRoutes.status := 400;
         EventRoutes.message := "Name, position, and academic year are required." |};
       db := members;
       unlinked := unlink_upload file |}
  else
    let newTeamMember :=
      {| d_name := name form;
         d_idNumber := idNumber form;
         photo := {| ptype := actualPhotoType; pvalue := photoValue |};
         d_position := position form;
         d_academicYear := academicYear form;
         d_displayOrder := display_order (displayOrder form) (parsed_order w);
         d_linkedinId := linkedinId form;
         d_phoneNumber := phoneNumber form;
         d_isPhoneNumberPublic := public_flag (isPhoneNumberPublic form);
         d_telegramLink := telegramLink form;
         d_isTelegramLinkPublic := public_flag (isTelegramLinkPublic form) |} in
    match save_error w with
    | None =>
        {| response := {| EventRoutes.status := 201;
             EventRoutes.message := "Team member saved successfully!" |};
           db := <[new_id w := newTeamMember]> members;
           unlinked := [] |}
    | Some e =>
        {| response := post_catch e; db := members; unlinked := [] |}
    end.

(** *** PUT /api/team-members/:id *)

Record PutWorld : Type := {
  find_error : option EventRoutes.DbError;
  put_parsed_order : option Z;
  update_error : option EventRoutes.DbError;
  omit_undefined : bool
}.

(** The [catch] of the update handler. *)
Definition put_catch (e : EventRoutes.DbError) : EventRoutes.Response :=
  match e with
  | EventRoutes.CastObjectId =>
      {| EventRoutes.status := 400;
         EventRoutes.message := "Invalid Team Member ID format." |}
  | EventRoutes.ValidationError messages =>
      {| EventRoutes.status := 400;
         EventRoutes.message := String.concat ", " messages |}
  | EventRoutes.OtherError =>
      {| EventRoutes.status := 500;
         EventRoutes.message := "Server error updating team member." |}
  end.

(** [updateFields]: ten fields always, [photo] only when the handler
    assigned it. The display order and the two flags are never undefined. *)
Record UpdateFields : Type := {
  u_name : option string;
  u_idNumber : option string;
  u_position : option string;
  u_academicYear : option string;
  u_displayOrder : Z;
  u_linkedinId : option string;
  u_phoneNumber : option string;
  u_isPhoneNumberPublic : bool;
  u_telegramLink : option string;
  u_isTelegramLinkPublic : bool;
  u_photo : option Photo
}.

(** [{ $set: updateFields }] on a stored member. *)
Definition apply_set (omit : bool) (old : TeamMemberDoc) (u : UpdateFields)
  : TeamMemberDoc :=
  {| d_name := EventRoutes.set_scalar omit (d_name old) (u_name u);
     d_idNumber := EventRoutes.set_scalar omit (d_idNumber old) (u_idNumber u);
     photo := match u_photo u with Some p => p | None => photo old end;
     d_position := EventRoutes.set_scalar omit (d_position old) (u_position u);
     d_academicYear :=
       EventRoutes.set_scalar omit (d_academicYear old) (u_academicYear u);
     d_displayOrder := u_displayOrder u;
     d_linkedinId := EventRoutes.set_scalar omit (d_linkedinId old) (u_linkedinId u);
     d_phoneNumber :=
       EventRoutes.set_scalar omit (d_phoneNumber old) (u_phoneNumber u);
     d_isPhoneNumberPublic := u_isPhoneNumberPublic u;
     d_telegramLink :=
       EventRoutes.set_scalar omit (d_telegramLink old) (u_telegramLink u);
     d_isTelegramLinkPublic := u_isTelegramLinkPublic u |}.

(** The photo step of the update: the files handed to unlink and the
    [photo] key of [updateFields], or [None] for the 400 of an unknown
    photo type. *)
Definition photo_update (existingTeamMember : TeamMemberDoc) (file : option File)
    (form : Form) : option (list string * option Photo) :=
  match file with
  | Some f =>
      Some (deleteOldPoster (pvalue (photo existingTeamMember)),
            Some {| ptype := Some "upload";
                    pvalue := Some ("/uploads/" ++ filename f) |})
  | None =>
      if present (photoType form) then
        if field_is (photoType form) "url" then
          Some ((if field_is (ptype (photo existingTeamMember)) "upload"
                 then deleteOldPoster (pvalue (photo existingTeamMember))
                 else []),
                Some {| ptype := Some "url"; pvalue := photoValue form |})
        else if field_is (photoType form) "import" then
          Some ((if field_is (ptype (photo existingTeamMember)) "upload"
                 then deleteOldPoster (pvalue (photo existingTeamMember))
                 else []),
                Some {| ptype := Some "import"; pvalue := photoValue form |})
        else None
      else Some ([], None)
  end.

Definition put_member (w : PutWorld) (members : gmap string TeamMemberDoc)
    (id : string) (file : option File) (form : Form) : Result :=
  match find_error w with
  | Some e => {| response := put_catch e; db := members; unlinked := [] |}
  | None =>
      match members !! id with
      | None =>
          {| response := {| EventRoutes.status := 404;
               EventRoutes.message := "Team member not found." |};
             db := members;
             unlinked := unlink_upload file |}
      | Some existingTeamMember =>
          match photo_update existingTeamMember file form with
          | None =>
              {| response := {| EventRoutes.status := 400;
                   EventRoutes.message := "Invalid photo type specified for update." |};
                 db := members;
                 unlinked := [] |}
          | Some (deleted, newPhoto) =>
              let updateFields :=
                {| u_name := name form;
                   u_idNumber := idNumber form;
                   u_position := position form;
                   u_academicYear := academicYear form;
                   u_displayOrder := display_order (displayOrder form) (put_parsed_order w);
                   u_linkedinId := linkedinId form;
                   u_phoneNumber := phoneNumber form;
                   u_isPhoneNumberPublic := public_flag (isPhoneNumberPublic form);
                   u_telegramLink := telegramLink form;
                   u_isTelegramLinkPublic := public_flag (isTelegramLinkPublic form);
                   u_photo := newPhoto |} in
              match update_error w with
              | Some e =>
                  {| response := put_catch e; db := members; unlinked := deleted |}
              | None =>
                  {| response := {| EventRoutes.status := 200;
                       EventRoutes.message := "Team member updated successfully!" |};
                     db := <[id := apply_set (omit_undefined w) existingTeamMember
                                     updateFields]> members;
                     unlinked := deleted |}
              end
          end
      end
  end.

(** *** DELETE /api/team-members/:id *)

Record DeleteWorld : Type := {
  del_find_error : option EventRoutes.DbError;
  delete_error : option EventRoutes.DbError
}.

Definition delete_catch (e : EventRoutes.DbError) : EventRoutes.Response :=
  match e with
  | EventRoutes.CastObjectId =>
      {| EventRoutes.status := 400;
         EventRoutes.message := "Invalid Team Member ID format." |}
  | _ => {| EventRoutes.status := 500;
            EventRoutes.message := "Server error deleting team member." |}
  end.

Definition delete_member (w : DeleteWorld) (members : gmap string TeamMemberDoc)
    (id : string) : Result :=
  match del_find_error w with
  | Some e => {| response := delete_catch e; db := members; unlinked := [] |}
  | None =>
      match members !! id with
      | None =>
          {| response := {| EventRoutes.status := 404;
               EventRoutes.message := "Team member not found" |};
             db := members;
             unlinked := [] |}
      | Some teamMember =>
          let deleted :=
            if field_is (ptype (photo teamMember)) "upload"
               && present (pvalue (photo teamMember))
            then deleteOldPoster (pvalue (photo teamMember))
            else [] in
          match delete_error w with
          | Some e =>
              {| response := delete_catch e; db := members; unlinked := deleted |}
          | None =>
              {| response := {| EventRoutes.status := 200;
                   EventRoutes.message := "Team member deleted successfully!" |};
                 db := delete id members;
                 unlinked := deleted |}
          end
      end
  end.

End TeamRoutes.

(* ===================================================================== *)
(** ** Backend2/config/multerConfig.js *)
(* ===================================================================== *)

Module MulterConfig.

(** [w] occurs somewhere in [s]. *)
Fixpoint contains (w s : string) : bool :=
  String.prefix w s
  || match s with
     | EmptyString => false
     | String _ rest => contains w rest
     end.

(** [/jpeg|jpg|png|gif/.test(s)] *)
Definition filetypes_test (s : string) : bool :=
  contains "jpeg" s || contains "jpg" s || contains "png" s || contains "gif" s.

(** What the filter reads of the incoming file: [file.mimetype], and
    [path.extname(file.originalname).toLowerCase()] as the runtime
    computed it. *)
Record Incoming : Type := {
  lowered_extname : string;
  mimetype : string
}.

(** [cb(null, true)], or [cb(new Error(message), false)]. *)
Inductive Verdict : Type :=
| Accept
| Refuse (message : string).

Definition fileFilter (file : Incoming) : Verdict :=
  let extname := filetypes_test (lowered_extname file) in
  let mimetype := filetypes_test (mimetype file) in
  if mimetype && extname then Accept
  else Refuse "Only images (JPEG, JPG, PNG, GIF) are allowed!".

End MulterConfig.

(* ===================================================================== *)
(** ** Backend2/server.js: the error handlers *)
(* ===================================================================== *)

Module Server.

(** An error passed to [next]: a [multer.MulterError] with its code, or
    anything else, with its [message] if it has one. *)
Inductive AppError : Type :=
| MulterError (code message : string)
| OtherError (message : option string).

(** The first error handler: a response, or [None] for [next(err)]. *)
Definition multer_error_handler (err : AppError) : option EventRoutes.Response :=
  match err with
  | MulterError code message =>
      if String.eqb code "LIMIT_FILE_SIZE" then
        Some {| EventRoutes.status := 400;
                EventRoutes.message := "File size too large. Maximum 5MB allowed." |}
      else if String.eqb code "LIMIT_UNEXPECTED_FILE" then
        Some {| EventRoutes.status := 400;
                EventRoutes.message :=
                  "Too many files uploaded or unexpected field name." |}
      else
        Some {| EventRoutes.status := 400;
                EventRoutes.message := "Multer error: " ++ message |}
  | OtherError _ => None
  end.

Definition error_message (err : AppError) : option string :=
  match err with
  | MulterError _ message => Some message
  | OtherError message => message
  end.

(** The general error handler: [err.message || '...']. *)
Definition general_error_handler (err : AppError) : EventRoutes.Response :=
  {| EventRoutes.status := 500;
     EventRoutes.message :=
       match error_message err with
       | Some m => if String.eqb m EmptyString
                   then "An unexpected server error occurred." else m
       | None => "An unexpected server error occurred."
       end |}.

(** The two handlers in the order [app.use] registers them. *)
Definition handle_error (err : AppError) : EventRoutes.Response :=
  match multer_error_handler err with
  | Some r => r
  | None => general_error_handler err
  end.

(** The error multer passes on when the filter refuses a file. *)
Definition filter_error (v : MulterConfig.Verdict) : option AppError :=
  match v with
  | MulterConfig.Accept => None
  | MulterConfig.Refuse message => Some (OtherError (Some message))
  end.

End Server.

(* ===================================================================== *)
(** ** The speakers rule of the event schema *)
(* ===================================================================== *)

Module EventModel.





End EventModel.

(* ===================================================================== *)
(** ** Sample requests, used to run the handlers on concrete inputs *)
(* ===================================================================== *)

Module Samples.

Import AuthRoutes.

Definition env : Env :=
  {| CLUB_EMAIL := Some "club@example.org"; ADMIN_SECRET := Some "s3cret" |}.

Definition credentials : GenerateBody :=
  {| g_email := JStr "club@example.org"; g_adminSecret := JStr "s3cret" |}.

(** Issued at t = 1000 ms with the bytes 0x0a 0xff 0x30; the mail fails. *)
Definition issue_unsent : GenerateWorld :=
  {| random := {| b0 := x0a; b1 := xff; b2 := x30 |};
     g_now := 1000;
     mail_sent := false |}.

Definition code : VerifyBody :=
  {| v_email := JStr "club@example.org"; v_otp := JStr "0aff30" |}.

Definition signer (p : Payload) : option string := Some ("jwt-for-" ++ user_id p).

(** Five minutes after the issuance, the collection and the signer work. *)
Definition healthy : VerifyWorld :=
  {| v_now := 301000; find_admin := NotFound; sign := signer |}.

(** Five minutes after the issuance, the collection is down. *)
Definition db_down : VerifyWorld :=
  {| v_now := 301000; find_admin := FindFailed; sign := signer |}.

(** A second issuance, one minute after the first, with other bytes. *)
Definition reissue : GenerateWorld :=
  {| random := {| b0 := xc0; b1 := xff; b2 := xee |};
     g_now := 61000;
     mail_sent := true |}.

Definition second_code : VerifyBody :=
  {| v_email := JStr "club@example.org"; v_otp := JStr "c0ffee" |}.

(** Ten minutes and one second after the issuance. *)
Definition late : VerifyWorld :=
  {| v_now := 602000; find_admin := NotFound; sign := signer |}.

(** An upload as multer names it: field name, time stamp, random suffix. *)
Definition upload : File :=
  {| filename := "posterFile-1700000000000-123456789.png" |}.

Definition quote : string := String (ascii_of_nat 34) EmptyString.

(** The JSON text of a list with one speaker, Ada with id 7, and what
    [JSON.parse] makes of it. *)
Definition speakers_text : string :=
  "[{" ++ quote ++ "name" ++ quote ++ ":" ++ quote ++ "Ada" ++ quote ++ ","
       ++ quote ++ "id" ++ quote ++ ":7}]".

Definition speakers_list : jsval :=
  JArr [JObj [("name", JStr "Ada"); ("id", JNum 7)]].

Definition event_form : EventRoutes.Form :=
  {| EventRoutes.eventName := Some "Intro to Solidity";
     EventRoutes.eventDate := Some "2025-01-15";
     EventRoutes.eventTime := None;
     EventRoutes.eventLocation := Some "Lab 2";
     EventRoutes.eventLink := None;
     EventRoutes.academicYear := Some "2024-25";
     EventRoutes.description := None;
     EventRoutes.speakers := Some speakers_text;
     EventRoutes.posterType := None;
     EventRoutes.posterValue := None |}.

Definition with_speakers (text : option string) (form : EventRoutes.Form)
  : EventRoutes.Form :=
  {| EventRoutes.eventName := EventRoutes.eventName form;
     EventRoutes.eventDate := EventRoutes.eventDate form;
     EventRoutes.eventTime := EventRoutes.eventTime form;
     EventRoutes.eventLocation := EventRoutes.eventLocation form;
     EventRoutes.eventLink := EventRoutes.eventLink form;
     EventRoutes.academicYear := EventRoutes.academicYear form;
     EventRoutes.description := EventRoutes.description form;
     EventRoutes.speakers := text;
     EventRoutes.posterType := EventRoutes.posterType form;
     EventRoutes.posterValue := EventRoutes.posterValue form |}.

Definition with_poster (kind value : option string) (form : EventRoutes.Form)
  : EventRoutes.Form :=
  {| EventRoutes.eventName := EventRoutes.eventName form;
     EventRoutes.eventDate := EventRoutes.eventDate form;
     EventRoutes.eventTime := EventRoutes.eventTime form;
     EventRoutes.eventLocation := EventRoutes.eventLocation form;
     EventRoutes.eventLink := EventRoutes.eventLink form;
     EventRoutes.academicYear := EventRoutes.academicYear form;
     EventRoutes.description := EventRoutes.description form;
     EventRoutes.speakers := EventRoutes.speakers form;
     EventRoutes.posterType := kind;
     EventRoutes.posterValue := value |}.

Definition without_name (form : EventRoutes.Form) : EventRoutes.Form :=
  {| EventRoutes.eventName := None;
     EventRoutes.eventDate := EventRoutes.eventDate form;
     EventRoutes.eventTime := EventRoutes.eventTime form;
     EventRoutes.eventLocation := EventRoutes.eventLocation form;
     EventRoutes.eventLink := EventRoutes.eventLink form;
     EventRoutes.academicYear := EventRoutes.academicYear form;
     EventRoutes.description := EventRoutes.description form;
     EventRoutes.speakers := EventRoutes.speakers form;
     EventRoutes.posterType := EventRoutes.posterType form;
     EventRoutes.posterValue := EventRoutes.posterValue form |}.

(** An update form: a new name and a time, no speakers, no poster fields. *)
Definition renamed_form : EventRoutes.Form :=
  {| EventRoutes.eventName := Some "Solidity, part two";
     EventRoutes.eventDate := Some "2025-01-15";
     EventRoutes.eventTime := Some "17:00";
     EventRoutes.eventLocation := Some "Lab 2";
     EventRoutes.eventLink := None;
     EventRoutes.academicYear := Some "2024-25";
     EventRoutes.description := None;
     EventRoutes.speakers := None;
     EventRoutes.posterType := None;
     EventRoutes.posterValue := None |}.

(** [JSON.parse] returns the list of [speakers_text]; the store takes
    the document and names it e1. *)
Definition store_accepts : EventRoutes.PostWorld :=
  {| EventRoutes.post_parsed := Some speakers_list;
     EventRoutes.save_error := None;
     EventRoutes.new_id := "e1" |}.

(** [JSON.parse] throws on the speakers text. *)
Definition parse_throws : EventRoutes.PostWorld :=
  {| EventRoutes.post_parsed := None;
     EventRoutes.save_error := None;
     EventRoutes.new_id := "e1" |}.

(** [JSON.parse] is not called (no speakers were sent), and the schema
    refuses the document: its speakers list is empty. *)
Definition schema_refuses : EventRoutes.PostWorld :=
  {| EventRoutes.post_parsed := None;
     EventRoutes.save_error :=
       Some (EventRoutes.ValidationError
               ["At least one speaker with a valid name and ID is required."]);
     EventRoutes.new_id := "e1" |}.

Definition photo_upload : File :=
  {| filename := "photo-1700000000000-987654321.jpg" |}.

Definition member_form : TeamRoutes.Form :=
  {| TeamRoutes.name := Some "Ada";
     TeamRoutes.idNumber := None;
     TeamRoutes.position := Some "Lead";
     TeamRoutes.academicYear := Some "2025";
     TeamRoutes.displayOrder := JUndefined;
     TeamRoutes.linkedinId := None;
     TeamRoutes.phoneNumber := Some "12345";
     TeamRoutes.isPhoneNumberPublic := JUndefined;
     TeamRoutes.telegramLink := None;
     TeamRoutes.isTelegramLinkPublic := JUndefined;
     TeamRoutes.photoType := None;
     TeamRoutes.photoValue := None |}.

(** The schema refuses the member: the phone number has five digits. *)
Definition phone_refused : TeamRoutes.PostWorld :=
  {| TeamRoutes.parsed_order := None;
     TeamRoutes.save_error :=
       Some (EventRoutes.ValidationError ["Please fill a valid phone number"]);
     TeamRoutes.new_id := "m1" |}.

(** An update the store carries out. *)
Definition update_accepted : EventRoutes.PutWorld :=
  {| EventRoutes.find_error := None;
     EventRoutes.put_parsed := Some speakers_list;
     EventRoutes.update_error := None;
     EventRoutes.omit_undefined := true |}.

(** A stored event whose poster is an earlier upload. *)
Definition uploaded_event : EventRoutes.EventDoc :=
  {| EventRoutes.scalars := EventRoutes.scalars_of event_form;
     EventRoutes.d_speakers := speakers_list;
     EventRoutes.poster :=
       {| EventRoutes.ptype := Some "upload";
          EventRoutes.pvalue := Some "/uploads/posterFile-1690000000000-42.png" |} |}.

(** A create request that declares the poster a URL and gives, as its
    value, the public path of a file in the uploads directory. *)
Definition linking_form : EventRoutes.Form :=
  with_poster (Some "url") (Some "/uploads/photo-1690000000000-42.png") event_form.

(** The event that request stores. *)
Definition linked_event : EventRoutes.EventDoc :=
  {| EventRoutes.scalars := EventRoutes.scalars_of event_form;
     EventRoutes.d_speakers := speakers_list;
     EventRoutes.poster :=
       {| EventRoutes.ptype := Some "url";
          EventRoutes.pvalue := Some "/uploads/photo-1690000000000-42.png" |} |}.

Definition admin_request : AuthMiddleware.Request :=
  {| AuthMiddleware.authorization := Some "Bearer abc";
     AuthMiddleware.user := JObj [("id", JStr "42"); ("role", JStr "admin")] |}.

End Samples.

(* ===================================================================== *)
(** ** Further sample requests *)
(* ===================================================================== *)

Module MoreSamples.

(** A verifier that knows one token, [abc.def.ghi], signed for the
    placeholder identity. *)
Definition one_token : AuthMiddleware.TokenWorld :=
  {| AuthMiddleware.jwt_verify := fun token =>
       if String.eqb token "abc.def.ghi"
       then Some (JObj [("user", JObj [("id", JStr "admin_id_placeholder_from_authroutes");
                                        ("role", JStr "admin")]);
                        ("iat", JNum 1700000000); ("exp", JNum 1700003600)])
       else None |}.

Definition bearer (header : string) : AuthMiddleware.Request :=
  {| AuthMiddleware.authorization := Some header;
     AuthMiddleware.user := JUndefined |}.

(** The collection and the signer work; the signer returns the token
    [one_token] knows. *)
Definition signs_one_token : AuthRoutes.VerifyWorld :=
  {| AuthRoutes.v_now := 301000;
     AuthRoutes.find_admin := AuthRoutes.NotFound;
     AuthRoutes.sign := fun _ => Some "abc.def.ghi" |}.

(** The store carries out a deletion. *)
Definition delete_accepted : EventRoutes.DeleteWorld :=
  {| EventRoutes.del_find_error := None; EventRoutes.delete_error := None |}.

(** The store finds the event and then fails to delete it. *)
Definition delete_refused : EventRoutes.DeleteWorld :=
  {| EventRoutes.del_find_error := None;
     EventRoutes.delete_error := Some EventRoutes.OtherError |}.

(** The store finds the event and then fails on the update. *)
Definition update_refused : EventRoutes.PutWorld :=
  {| EventRoutes.find_error := None;
     EventRoutes.put_parsed := Some Samples.speakers_list;
     EventRoutes.update_error := Some EventRoutes.OtherError;
     EventRoutes.omit_undefined := true |}.

(** The store takes the new member and names it m1; no display order
    was sent, so [parseInt] gave NaN. *)
Definition member_accepted : TeamRoutes.PostWorld :=
  {| TeamRoutes.parsed_order := None;
     TeamRoutes.save_error := None;
     TeamRoutes.new_id := "m1" |}.

(** The same with the display order given as the text 0, which
    [parseInt] reads as 0. *)
Definition order_zero_form : TeamRoutes.Form :=
  {| TeamRoutes.name := Some "Ada";
     TeamRoutes.idNumber := None;
     TeamRoutes.position := Some "President";
     TeamRoutes.academicYear := Some "2025";
     TeamRoutes.displayOrder := JStr "0";
     TeamRoutes.linkedinId := None;
     TeamRoutes.phoneNumber := None;
     TeamRoutes.isPhoneNumberPublic := JUndefined;
     TeamRoutes.telegramLink := None;
     TeamRoutes.isTelegramLinkPublic := JUndefined;
     TeamRoutes.photoType := None;
     TeamRoutes.photoValue := None |}.

(** The same as a JSON body, with the display order the number 0 and
    the phone flag the boolean true. *)
Definition order_zero_json : TeamRoutes.Form :=
  {| TeamRoutes.name := Some "Ada";
     TeamRoutes.idNumber := None;
     TeamRoutes.position := Some "President";
     TeamRoutes.academicYear := Some "2025";
     TeamRoutes.displayOrder := JNum 0;
     TeamRoutes.linkedinId := None;
     TeamRoutes.phoneNumber := None;
     TeamRoutes.isPhoneNumberPublic := JBool true;
     TeamRoutes.telegramLink := None;
     TeamRoutes.isTelegramLinkPublic := JUndefined;
     TeamRoutes.photoType := None;
     TeamRoutes.photoValue := None |}.

(** [parseInt] reads 0, and the store takes the member. *)
Definition order_zero_accepted : TeamRoutes.PostWorld :=
  {| TeamRoutes.parsed_order := Some 0;
     TeamRoutes.save_error := None;
     TeamRoutes.new_id := "m1" |}.

(** A stored member with an uploaded photo, display order 3, and a
    public phone number. *)
Definition stored_member : TeamRoutes.TeamMemberDoc :=
  {| TeamRoutes.d_name := Some "Ada";
     TeamRoutes.d_idNumber := Some "2021001";
     TeamRoutes.photo :=
       {| TeamRoutes.ptype := Some "upload";
          TeamRoutes.pvalue := Some "/uploads/photo-1690000000000-7.jpg" |};
     TeamRoutes.d_position := Some "Lead";
     TeamRoutes.d_academicYear := Some "2025";
     TeamRoutes.d_displayOrder := 3;
     TeamRoutes.d_linkedinId := None;
     TeamRoutes.d_phoneNumber := Some "+911234567890";
     TeamRoutes.d_isPhoneNumberPublic := true;
     TeamRoutes.d_telegramLink := None;
     TeamRoutes.d_isTelegramLinkPublic := false |}.

(** An update form that only renames the position. *)
Definition position_form : TeamRoutes.Form :=
  {| TeamRoutes.name := Some "Ada";
     TeamRoutes.idNumber := None;
     TeamRoutes.position := Some "President";
     TeamRoutes.academicYear := Some "2025";
     TeamRoutes.displayOrder := JUndefined;
     TeamRoutes.linkedinId := None;
     TeamRoutes.phoneNumber := None;
     TeamRoutes.isPhoneNumberPublic := JUndefined;
     TeamRoutes.telegramLink := None;
     TeamRoutes.isTelegramLinkPublic := JUndefined;
     TeamRoutes.photoType := None;
     TeamRoutes.photoValue := None |}.

(** The form above with an imported photo declared. *)
Definition import_form : TeamRoutes.Form :=
  {| TeamRoutes.name := Some "Ada";
     TeamRoutes.idNumber := None;
     TeamRoutes.position := Some "President";
     TeamRoutes.academicYear := Some "2025";
     TeamRoutes.displayOrder := JUndefined;
     TeamRoutes.linkedinId := None;
     TeamRoutes.phoneNumber := None;
     TeamRoutes.isPhoneNumberPublic := JUndefined;
     TeamRoutes.telegramLink := None;
     TeamRoutes.isTelegramLinkPublic := JUndefined;
     TeamRoutes.photoType := Some "import";
     TeamRoutes.photoValue := Some "ada_profile" |}.

(** The store carries out the update; no display order was sent, so
    [parseInt] gave NaN. *)
Definition member_update_accepted : TeamRoutes.PutWorld :=
  {| TeamRoutes.find_error := None;
     TeamRoutes.put_parsed_order := None;
     TeamRoutes.update_error := None;
     TeamRoutes.omit_undefined := true |}.

Definition member_delete_refused : TeamRoutes.DeleteWorld :=
  {| TeamRoutes.del_find_error := None;
     TeamRoutes.delete_error := Some EventRoutes.OtherError |}.

(** A file named like a picture whose extension only contains [png]. *)
Definition odd_picture : MulterConfig.Incoming :=
  {| MulterConfig.lowered_extname := ".pngx";
     MulterConfig.mimetype := "image/png" |}.

Definition pdf_file : MulterConfig.Incoming :=
  {| MulterConfig.lowered_extname := ".pdf";
     MulterConfig.mimetype := "application/pdf" |}.

End MoreSamples.

(* ===================================================================== *)
(** ** Properties of the role gate *)
(* ===================================================================== *)

Module AuthMiddlewareFacts.

Import AuthMiddleware.

Lemma is_str_true (v : jsval) (s : string) :
  is_str v s = true <-> v = JStr s.
Proof.
  destruct v; simpl; try (split; [discriminate | intros [=]]).
  rewrite String.eqb_eq. split; [intros -> | intros [= ->]]; reflexivity.
Qed.

Lemma includes_true (roles : list string) (v : jsval) :
  includes roles v = true <-> exists r, v = JStr r /\ In r roles.
Proof.
  unfold includes. rewrite existsb_exists. split.
  - intros (r & Hin & Heq). apply is_str_true in Heq. eauto.
  - intros (r & Heq & Hin). exists r. split; [assumption |].
    apply is_str_true. assumption.
Qed.

(** C9. The role gate answers 403 with the no-identity message when the
    claim or its role is absent (falsy, as the code tests it), 403 with
    the role-not-allowed message when the role is there but is not one of
    the allowed roles, and otherwise hands on the request exactly as it
    received it; a request it hands on is never changed. A claim whose
    role is the text admin passes the gate for the allowed set [admin]. *)
Theorem authorizeRoles_gate (roles : list string) (req : Request) :
  let role := get (user req) "role" in
  (truthy (user req) = false \/ truthy role = false ->
     authorizeRoles roles req = Respond 403 no_identity_message)
  /\ (truthy (user req) = true -> truthy role = true -> ~ allowed roles role ->
     authorizeRoles roles req = Respond 403 (role_not_allowed_message roles))
  /\ (truthy (user req) = true -> truthy role = true -> allowed roles role ->
     authorizeRoles roles req = Next req)
  /\ (forall req', authorizeRoles roles req = Next req' -> req' = req)
  /\ (role = JStr "admin" -> authorizeRoles ["admin"%string] req = Next req).
Proof.
  intros role. unfold authorizeRoles. fold role.
  repeat split.
  - intros [-> | ->]; [reflexivity |].
    rewrite orb_true_r. reflexivity.
  - intros -> -> Hno. simpl.
    destruct (includes roles role) eqn:Hin; [| reflexivity].
    apply includes_true in Hin. contradiction.
  - intros -> -> Hyes. simpl.
    apply includes_true in Hyes. rewrite Hyes. reflexivity.
  - intros req'.
    destruct (negb (truthy (user req)) || negb (truthy role)); [discriminate |].
    destruct (negb (includes roles role)); [discriminate |].
    intros [= <-]. reflexivity.
  - intros Hrole.
    assert (truthy (user req) = true) as ->.
    { unfold role, get in Hrole. destruct (user req); try discriminate. reflexivity. }
    rewrite Hrole. reflexivity.
Qed.

Lemma authorizeRoles_gate_witness :
  authorizeRoles ["admin"%string] Samples.admin_request = Next Samples.admin_request.
Proof.
  apply (authorizeRoles_gate ["admin"%string] Samples.admin_request).
  reflexivity.
Defined.

Example member_is_turned_away :
  authorizeRoles ["admin"%string]
    {| authorization := None; user := JObj [("role", JStr "member")] |}
  = Respond 403 "Access denied: Requires one of the following roles: admin".
Proof. reflexivity. Qed.

Example missing_role_is_turned_away :
  authorizeRoles ["admin"%string]
    {| authorization := None; user := JObj [("id", JStr "42")] |}
  = Respond 403 no_identity_message.
Proof. reflexivity. Qed.

End AuthMiddlewareFacts.

(* ===================================================================== *)
(** ** Properties of the one-time passcodes *)
(* ===================================================================== *)

Module AuthRoutesFacts.

Import AuthRoutes.
Import AuthMiddlewareFacts.

Lemma hex_length (bytes : list byte) :
  String.length (hex bytes) = (2 * length bytes)%nat.
Proof.
  induction bytes as [| b rest IH]; simpl; [reflexivity |].
  rewrite IH. lia.
Qed.

Lemma new_otp_length (r : Random3) : String.length (new_otp r) = 6%nat.
Proof. unfold new_otp. rewrite hex_length. reflexivity. Qed.

Lemma login_cases (w : VerifyWorld) :
  (exists t, login w = logged_in t) \/ login w = server_error.
Proof.
  unfold login.
  destruct (find_admin w); try (right; reflexivity);
    (destruct (sign w _) as [t |]; [left; exists t; reflexivity | right; reflexivity]).
Qed.

Lemma login_works (w : VerifyWorld) (t : string) :
  find_admin w <> FindFailed ->
  sign w (payload_of (find_admin w)) = Some t ->
  login w = logged_in t.
Proof.
  unfold login. intros Hfind Hsign.
  destruct (find_admin w); try contradiction; rewrite Hsign; reflexivity.
Qed.

Lemma login_not_rejection (w : VerifyWorld) : status (login w) <> 400.
Proof.
  destruct (login_cases w) as [[t ->] | ->]; simpl; lia.
Qed.

Section Verify.

Variables (env : Env) (w : VerifyWorld) (store : gmap string OtpEntry)
  (body : VerifyBody).
Hypothesis email_ok : strict_eq_env (v_email body) (CLUB_EMAIL env) = true.

Lemma verify_otp_rejects :
  otp_rejected (store !! store_key env) (v_otp body) (v_now w) = true ->
  verify_otp env w store body = (invalid_or_expired, store).
Proof.
  intros Hrej. unfold verify_otp. rewrite email_ok. simpl.
  rewrite Hrej. reflexivity.
Qed.

Lemma verify_otp_accepts (d : OtpEntry) :
  store !! store_key env = Some d ->
  v_otp body = JStr (otp d) ->
  v_now w <= expires d ->
  verify_otp env w store body = (login w, delete (store_key env) store).
Proof.
  intros Hd Hcode Hnow. unfold verify_otp. rewrite email_ok. simpl.
  rewrite Hd. simpl. rewrite Hcode. simpl. rewrite String.eqb_refl. simpl.
  destruct (expires d <? v_now w) eqn:Hlt; [apply Z.ltb_lt in Hlt; lia |].
  reflexivity.
Qed.

End Verify.

Section Generate.

Variables (env : Env) (w : GenerateWorld) (store : gmap string OtpEntry)
  (body : GenerateBody).
Hypothesis email_ok : strict_eq_env (g_email body) (CLUB_EMAIL env) = true.
Hypothesis secret_ok : strict_eq_env (g_adminSecret body) (ADMIN_SECRET env) = true.

Lemma generate_otp_store :
  snd (generate_otp env w store body) = <[store_key env := issued w]> store.
Proof.
  unfold generate_otp. rewrite email_ok, secret_ok. simpl.
  destruct (mail_sent w); reflexivity.
Qed.

Lemma generate_otp_lookup :
  snd (generate_otp env w store body) !! store_key env = Some (issued w).
Proof. rewrite generate_otp_store. apply lookup_insert_eq. Qed.

Lemma generate_otp_response :
  fst (generate_otp env w store body)
  = if mail_sent w then reply 200 "OTP sent to admin email."
    else reply 500 "Failed to send OTP. Please check server logs.".
Proof.
  unfold generate_otp. rewrite email_ok, secret_ok. simpl.
  destruct (mail_sent w); reflexivity.
Qed.

End Generate.

(** C2. For a configured address that is not the name of a member of
    [Object.prototype]: after an issuance for the admin email, a verify
    no later than ten minutes after it with the issued code is accepted:
    the answer is that of the login step (never a 400; the 200 with the
    signed token whenever the user lookup and the signer do not fail) and
    the stored entry is gone; a second verify with the same code, at any
    time and whatever the services do, is answered with the
    invalid-or-expired 400 and leaves the store as it is. *)
Theorem verify_succeeds_exactly_once
    (env : Env) (gw : GenerateWorld) (store : gmap string OtpEntry)
    (creds : GenerateBody) (first second : VerifyWorld) :
  plain_address env = true ->
  strict_eq_env (g_email creds) (CLUB_EMAIL env) = true ->
  strict_eq_env (g_adminSecret creds) (ADMIN_SECRET env) = true ->
  v_now first <= g_now gw + 10 * 60 * 1000 ->
  let store1 := snd (generate_otp env gw store creds) in
  let body := {| v_email := g_email creds; v_otp := JStr (new_otp (random gw)) |} in
  let r1 := verify_otp env first store1 body in
  let r2 := verify_otp env second (snd r1) body in
  fst r1 = login first
  /\ status (fst r1) <> 400
  /\ (forall t, find_admin first <> FindFailed ->
        sign first (payload_of (find_admin first)) = Some t ->
        fst r1 = logged_in t)
  /\ snd r1 !! store_key env = None
  /\ r2 = (invalid_or_expired, snd r1).
Proof.
  intros _ Hemail Hsecret Hnow store1 body r1 r2.
  assert (Hr1 : r1 = (login first, delete (store_key env) store1)).
  { apply (verify_otp_accepts env first store1 body Hemail (issued gw)).
    - apply generate_otp_lookup; assumption.
    - reflexivity.
    - exact Hnow. }
  subst r2. rewrite Hr1. simpl fst. simpl snd.
  assert (Hgone : delete (store_key env) store1 !! store_key env = None)
    by apply lookup_delete_eq.
  repeat split.
  - apply login_not_rejection.
  - intros t Hfind Hsign. apply login_works; assumption.
  - exact Hgone.
  - apply verify_otp_rejects; [exact Hemail |].
    rewrite Hgone. reflexivity.
Qed.

Lemma verify_succeeds_exactly_once_witness :
  let store1 := snd (generate_otp Samples.env Samples.issue_unsent ∅ Samples.credentials) in
  let r1 := verify_otp Samples.env Samples.healthy store1 Samples.code in
  fst r1 = logged_in "jwt-for-admin_id_placeholder_from_authroutes"
  /\ verify_otp Samples.env Samples.late (snd r1) Samples.code
     = (invalid_or_expired, snd r1).
Proof.
  pose proof (verify_succeeds_exactly_once Samples.env Samples.issue_unsent ∅
                Samples.credentials Samples.healthy Samples.late
                eq_refl eq_refl eq_refl) as H.
  simpl in H. specialize (H ltac:(lia)).
  destruct H as (_ & _ & Hok & _ & Hsecond).
  split.
  - apply Hok; [discriminate | reflexivity].
  - exact Hsecond.
Defined.

(** C3. For a configured address that is not the name of a member of
    [Object.prototype], and a request with the admin email: verify
    answers the invalid-or-expired 400 and leaves the store alone
    whenever there is no entry, or the submitted code is not the stored
    one, or the clock is past the stored expiry; an entry issued at [t0]
    (expiry [t0] plus ten minutes) is so refused from [t0] plus ten
    minutes and one second on, whatever code is submitted. *)
Theorem verify_fails_without_valid_code
    (env : Env) (w : VerifyWorld) (store : gmap string OtpEntry)
    (body : VerifyBody) :
  plain_address env = true ->
  strict_eq_env (v_email body) (CLUB_EMAIL env) = true ->
  (store !! store_key env = None
   \/ exists d, store !! store_key env = Some d
        /\ (v_otp body <> JStr (otp d)
            \/ expires d < v_now w
            \/ exists t0, expires d = t0 + 10 * 60 * 1000
                 /\ t0 + 10 * 60 * 1000 + 1000 <= v_now w)) ->
  verify_otp env w store body = (invalid_or_expired, store).
Proof.
  intros _ Hemail Hcase. apply verify_otp_rejects; [exact Hemail |].
  destruct Hcase as [-> | (d & -> & Hd)]; [reflexivity |].
  simpl. apply orb_true_iff.
  destruct Hd as [Hcode | [Hlate | (t0 & Hexp & Hlate)]].
  - left. apply negb_true_iff.
    destruct (is_str (v_otp body) (otp d)) eqn:Heq; [| reflexivity].
    apply is_str_true in Heq. contradiction.
  - right. apply Z.ltb_lt. exact Hlate.
  - right. apply Z.ltb_lt. lia.
Qed.

Lemma verify_fails_without_valid_code_witness :
  let store1 := snd (generate_otp Samples.env Samples.issue_unsent ∅ Samples.credentials) in
  verify_otp Samples.env Samples.late store1 Samples.code
  = (invalid_or_expired, store1).
Proof.
  intros store1.
  apply (verify_fails_without_valid_code Samples.env Samples.late store1 Samples.code).
  - reflexivity.
  - reflexivity.
  - right. exists (issued Samples.issue_unsent). split.
    + apply generate_otp_lookup; reflexivity.
    + right. right. exists 1000. split; [reflexivity | simpl; lia].
Defined.

(** C4. generate-otp answers 400, stores nothing and hands no message
    to the transporter when the email is not the configured one; 401,
    nothing stored and no message when the email matches and the secret
    does not; with both right it writes the new entry under the email and
    then hands the transporter one message, from the configured address
    to the email of the request, whose body carries the code just
    stored: 200 when the mail went out, 500 when it did not, and in that
    case the entry is in the store all the same, so that a verify with
    its code before the expiry is still accepted (200 with the token when
    lookup and signer work). *)
Theorem generate_otp_outcomes
    (env : Env) (w : GenerateWorld) (store : gmap string OtpEntry)
    (body : GenerateBody) :
  let r := generate_otp env w store body in
  (strict_eq_env (g_email body) (CLUB_EMAIL env) = false ->
     r = (reply 400 "Invalid admin email.", store)
     /\ generate_otp_mail env w body = None)
  /\ (strict_eq_env (g_email body) (CLUB_EMAIL env) = true ->
      strict_eq_env (g_adminSecret body) (ADMIN_SECRET env) = false ->
     r = (reply 401 "Invalid Admin Secret Key.", store)
     /\ generate_otp_mail env w body = None)
  /\ (strict_eq_env (g_email body) (CLUB_EMAIL env) = true ->
      strict_eq_env (g_adminSecret body) (ADMIN_SECRET env) = true ->
     snd r = <[store_key env := issued w]> store
     /\ generate_otp_mail env w body
        = Some {| from := CLUB_EMAIL env;
                  to := g_email body;
                  subject := "Your Blockchain Club Admin Login OTP";
                  html := otp_html (otp (issued w)) |}
     /\ (mail_sent w = true -> fst r = reply 200 "OTP sent to admin email.")
     /\ (mail_sent w = false ->
           fst r = reply 500 "Failed to send OTP. Please check server logs."
           /\ snd r !! store_key env = Some (issued w)
           /\ forall (vw : VerifyWorld) (t : string),
                v_now vw <= expires (issued w) ->
                find_admin vw <> FindFailed ->
                sign vw (payload_of (find_admin vw)) = Some t ->
                fst (verify_otp env vw (snd r)
                       {| v_email := g_email body;
                          v_otp := JStr (otp (issued w)) |})
                = logged_in t)).
Proof.
  intros r. split; [| split].
  - intros Hemail. unfold r, generate_otp, generate_otp_mail.
    rewrite Hemail. split; reflexivity.
  - intros Hemail Hsecret. unfold r, generate_otp, generate_otp_mail.
    rewrite Hemail, Hsecret. split; reflexivity.
  - intros Hemail Hsecret.
    pose proof (generate_otp_lookup env w store body Hemail Hsecret) as Hentry.
    pose proof (generate_otp_response env w store body Hemail Hsecret) as Hresp.
    fold r in Hentry, Hresp.
    split; [apply generate_otp_store; assumption |].
    split.
    { unfold generate_otp_mail. rewrite Hemail, Hsecret. reflexivity. }
    split; intros Hsent; rewrite Hsent in Hresp; [exact Hresp |].
    split; [exact Hresp |]. split; [exact Hentry |].
    intros vw t Hnow Hfind Hsign.
    set (vbody := {| v_email := g_email body; v_otp := JStr (otp (issued w)) |}).
    rewrite (verify_otp_accepts env vw (snd r) vbody Hemail (issued w) Hentry eq_refl Hnow).
    simpl. apply login_works; assumption.
Qed.

Lemma generate_otp_outcomes_witness :
  let r := generate_otp Samples.env Samples.issue_unsent ∅ Samples.credentials in
  fst r = reply 500 "Failed to send OTP. Please check server logs."
  /\ snd r !! "club@example.org"%string
     = Some {| otp := "0aff30"; expires := 601000 |}
  /\ generate_otp_mail Samples.env Samples.issue_unsent Samples.credentials
     = Some {| from := Some "club@example.org"%string;
               to := JStr "club@example.org";
               subject := "Your Blockchain Club Admin Login OTP";
               html := otp_html "0aff30" |}
  /\ fst (verify_otp Samples.env Samples.healthy (snd r) Samples.code)
     = logged_in "jwt-for-admin_id_placeholder_from_authroutes".
Proof.
  intros r.
  destruct (generate_otp_outcomes Samples.env Samples.issue_unsent ∅
              Samples.credentials) as (_ & _ & H).
  destruct (H eq_refl eq_refl) as (_ & Hmail & _ & Hunsent).
  destruct (Hunsent eq_refl) as (Hresp & Hentry & Hverify).
  split; [exact Hresp |]. split; [exact Hentry |]. split; [exact Hmail |].
  apply (Hverify Samples.healthy); [vm_compute; discriminate | discriminate | reflexivity].
Defined.

Example rejected_requests_send_no_mail :
  generate_otp_mail Samples.env Samples.issue_unsent
    {| g_email := JStr "eve@example.org"; g_adminSecret := JStr "s3cret" |} = None
  /\ generate_otp_mail Samples.env Samples.issue_unsent
       {| g_email := JStr "club@example.org"; g_adminSecret := JStr "guess" |} = None.
Proof. split; reflexivity. Qed.

Example wrong_email_stores_nothing :
  generate_otp Samples.env Samples.issue_unsent ∅
    {| g_email := JStr "eve@example.org"; g_adminSecret := JStr "s3cret" |}
  = (reply 400 "Invalid admin email.", ∅).
Proof. reflexivity. Qed.

Example wrong_secret_stores_nothing :
  generate_otp Samples.env Samples.issue_unsent ∅
    {| g_email := JStr "club@example.org"; g_adminSecret := JStr "guess" |}
  = (reply 401 "Invalid Admin Secret Key.", ∅).
Proof. reflexivity. Qed.

(** *** The store across requests *)

Lemma generate_otp_store_cases
    (env : Env) (w : GenerateWorld) (store : gmap string OtpEntry)
    (body : GenerateBody) :
  snd (generate_otp env w store body) = store
  \/ snd (generate_otp env w store body) = <[store_key env := issued w]> store.
Proof.
  unfold generate_otp.
  destruct (strict_eq_env (g_email body) (CLUB_EMAIL env)); [| left; reflexivity].
  destruct (strict_eq_env (g_adminSecret body) (ADMIN_SECRET env));
    [| left; reflexivity].
  right. simpl. destruct (mail_sent w); reflexivity.
Qed.

Lemma verify_otp_store_cases
    (env : Env) (w : VerifyWorld) (store : gmap string OtpEntry)
    (body : VerifyBody) :
  (status (fst (verify_otp env w store body)) = 400
   /\ snd (verify_otp env w store body) = store)
  \/ (fst (verify_otp env w store body) = login w
      /\ snd (verify_otp env w store body) = delete (store_key env) store
      /\ strict_eq_env (v_email body) (CLUB_EMAIL env) = true
      /\ otp_rejected (store !! store_key env) (v_otp body) (v_now w) = false).
Proof.
  unfold verify_otp.
  destruct (strict_eq_env (v_email body) (CLUB_EMAIL env)); simpl;
    [| left; split; reflexivity].
  destruct (otp_rejected _ _ _); [left; split; reflexivity |].
  right. repeat split; reflexivity.
Qed.

Lemma only_admin_entry_insert
    (env : Env) (store : gmap string OtpEntry) (d : OtpEntry) :
  only_admin_entry env store ->
  only_admin_entry env (<[store_key env := d]> store).
Proof.
  intros Hinv k Hk.
  destruct (decide (k = store_key env)) as [-> | Hne]; [reflexivity |].
  rewrite lookup_insert_ne in Hk by congruence. apply Hinv. exact Hk.
Qed.

Lemma only_admin_entry_delete
    (env : Env) (store : gmap string OtpEntry) :
  only_admin_entry env store ->
  only_admin_entry env (delete (store_key env) store).
Proof.
  intros Hinv k Hk.
  destruct (decide (k = store_key env)) as [-> | Hne]; [reflexivity |].
  rewrite lookup_delete_ne in Hk by congruence. apply Hinv. exact Hk.
Qed.

Lemma only_admin_entry_serve
    (env : Env) (store : gmap string OtpEntry) (c : Call) :
  only_admin_entry env store -> only_admin_entry env (serve env store c).
Proof.
  intros Hinv. destruct c as [w body | w body]; simpl.
  - destruct (generate_otp_store_cases env w store body) as [-> | ->];
      [exact Hinv | apply only_admin_entry_insert; exact Hinv].
  - destruct (verify_otp_store_cases env w store body)
      as [(_ & ->) | (_ & -> & _)];
      [exact Hinv | apply only_admin_entry_delete; exact Hinv].
Qed.

Lemma only_admin_entry_serve_all
    (env : Env) (calls : list Call) (store : gmap string OtpEntry) :
  only_admin_entry env store -> only_admin_entry env (serve_all env calls store).
Proof.
  revert store. induction calls as [| c calls IH]; intros store Hinv; simpl.
  - exact Hinv.
  - apply IH. apply only_admin_entry_serve. exact Hinv.
Qed.

Lemma only_admin_entry_size (env : Env) (store : gmap string OtpEntry) :
  only_admin_entry env store -> (size store <= 1)%nat.
Proof.
  intros Hinv. rewrite <- size_dom.
  rewrite <- (size_singleton (C := gset string) (store_key env)).
  apply subseteq_size. intros k Hk.
  apply elem_of_dom in Hk. apply Hinv in Hk. set_solver.
Qed.

(** C5. For a configured address that is not the name of a member of
    [Object.prototype]: whatever sequence of generate-otp and verify-otp
    requests the server has answered since it started, the store holds
    at most one entry, and only under the admin email: every request
    keeps it so. An issuance replaces whatever entry the email had by the
    new one and touches no other key; an accepted verification deletes
    the entry. *)
Theorem at_most_one_otp_per_email (env : Env) :
  plain_address env = true ->
  (forall (store : gmap string OtpEntry) (c : Call),
      only_admin_entry env store -> only_admin_entry env (serve env store c))
  /\ (forall calls : list Call,
        only_admin_entry env (serve_all env calls ∅)
        /\ (size (serve_all env calls ∅) <= 1)%nat)
  /\ (forall (store : gmap string OtpEntry) (w : GenerateWorld) (body : GenerateBody),
        strict_eq_env (g_email body) (CLUB_EMAIL env) = true ->
        strict_eq_env (g_adminSecret body) (ADMIN_SECRET env) = true ->
        forall k,
          snd (generate_otp env w store body) !! k
          = if decide (k = store_key env) then Some (issued w) else store !! k)
  /\ (forall (store : gmap string OtpEntry) (w : VerifyWorld) (body : VerifyBody),
        status (fst (verify_otp env w store body)) <> 400 ->
        snd (verify_otp env w store body) !! store_key env = None).
Proof.
  intros _. split; [| split; [| split]].
  - apply only_admin_entry_serve.
  - intros calls.
    assert (Hinv : only_admin_entry env (serve_all env calls ∅)).
    { apply only_admin_entry_serve_all. intros k [d Hd].
      rewrite lookup_empty in Hd. discriminate. }
    split; [exact Hinv | apply only_admin_entry_size with env; exact Hinv].
  - intros store w body Hemail Hsecret k.
    rewrite generate_otp_store by assumption.
    destruct (decide (k = store_key env)) as [-> | Hne].
    + apply lookup_insert_eq.
    + apply lookup_insert_ne. congruence.
  - intros store w body Hok.
    destruct (verify_otp_store_cases env w store body)
      as [(Hbad & _) | (_ & -> & _)]; [contradiction |].
    apply lookup_delete_eq.
Qed.

Lemma at_most_one_otp_per_email_witness :
  let store2 :=
    serve_all Samples.env
      [Generate Samples.issue_unsent Samples.credentials;
       Generate Samples.reissue Samples.credentials] ∅ in
  (size store2 <= 1)%nat
  /\ store2 !! "club@example.org"%string
     = Some {| otp := "c0ffee"; expires := 661000 |}
  /\ snd (verify_otp Samples.env Samples.healthy store2 Samples.second_code)
       !! "club@example.org"%string = None.
Proof.
  intros store2.
  destruct (at_most_one_otp_per_email Samples.env eq_refl)
    as (_ & Hall & Hissue & Hverify).
  split; [apply Hall |]. split.
  - apply (Hissue _ Samples.reissue Samples.credentials eq_refl eq_refl
             "club@example.org"%string).
  - apply (Hverify store2 Samples.healthy Samples.second_code).
    vm_compute. discriminate.
Defined.

(** C10. For a configured address that is not the name of a member of
    [Object.prototype]: when verify-otp answers 500, the submitted code
    was the stored one and in time, and the entry is already deleted: the
    store the request leaves behind has no entry for the email, so a
    retry with the same code, at any time and whatever the services then
    do, gets the invalid-or-expired 400. The 500 is what an accepted code
    gets when the user lookup or the signer fails. *)
Theorem otp_consumed_on_server_error
    (env : Env) (w : VerifyWorld) (store : gmap string OtpEntry)
    (body : VerifyBody) :
  plain_address env = true ->
  let r := verify_otp env w store body in
  (status (fst r) = 500 ->
     (exists d, store !! store_key env = Some d
        /\ v_otp body = JStr (otp d) /\ v_now w <= expires d)
     /\ snd r = delete (store_key env) store
     /\ snd r !! store_key env = None
     /\ forall retry : VerifyWorld,
          verify_otp env retry (snd r) body = (invalid_or_expired, snd r))
  /\ (status (fst r) <> 400 ->
      find_admin w = FindFailed \/ sign w (payload_of (find_admin w)) = None ->
      fst r = server_error).
Proof.
  intros _ r. unfold r.
  destruct (verify_otp_store_cases env w store body)
    as [(Hbad & _) | (Hresp & Hstore & Hemail & Hacc)].
  - split; [intros H500; rewrite H500 in Hbad; discriminate |].
    intros Hok. contradiction.
  - rewrite Hresp, Hstore. split.
    + intros _.
      assert (Hgone : delete (store_key env) store !! store_key env = None)
        by apply lookup_delete_eq.
      split; [| split; [reflexivity | split; [exact Hgone |]]].
      * unfold otp_rejected in Hacc.
        destruct (store !! store_key env) as [d |]; [| discriminate].
        apply orb_false_iff in Hacc. destruct Hacc as [Hcode Hlate].
        exists d. split; [reflexivity |]. split.
        -- apply negb_false_iff in Hcode. apply is_str_true. exact Hcode.
        -- apply Z.ltb_ge. exact Hlate.
      * intros retry. apply verify_otp_rejects; [exact Hemail |].
        rewrite Hgone. reflexivity.
    + intros _ Hfail. unfold login.
      destruct Hfail as [-> | Hsign]; [reflexivity |].
      destruct (find_admin w); try reflexivity; rewrite Hsign; reflexivity.
Qed.

Lemma otp_consumed_on_server_error_witness :
  let store1 := snd (generate_otp Samples.env Samples.issue_unsent ∅ Samples.credentials) in
  let r := verify_otp Samples.env Samples.db_down store1 Samples.code in
  fst r = server_error
  /\ verify_otp Samples.env Samples.healthy (snd r) Samples.code
     = (invalid_or_expired, snd r).
Proof.
  intros store1 r.
  destruct (otp_consumed_on_server_error Samples.env Samples.db_down store1
              Samples.code eq_refl) as (H500 & Hfail).
  split.
  - apply Hfail; [vm_compute; discriminate | left; reflexivity].
  - apply H500. reflexivity.
Defined.

End AuthRoutesFacts.

(* ===================================================================== *)
(** ** Properties of the event and team-member handlers *)
(* ===================================================================== *)

Module EventRoutesFacts.

Import EventRoutes.

Lemma prefix_not_empty (p : string) :
  String.prefix "/uploads/" p = true -> String.eqb p EmptyString = false.
Proof. destruct p; simpl; [discriminate | reflexivity]. Qed.

Lemma deleteOldPoster_In (posterPath : option string) (p : string) :
  In p (deleteOldPoster posterPath)
  <-> posterPath = Some p /\ String.prefix "/uploads/" p = true.
Proof.
  unfold deleteOldPoster. destruct posterPath as [q |]; simpl.
  - destruct (String.prefix "/uploads/" q) eqn:Hpre.
    + rewrite (prefix_not_empty q Hpre). simpl. split.
      * intros [-> | []]. split; [reflexivity | exact Hpre].
      * intros [[= ->] _]. left. reflexivity.
    + rewrite andb_false_r. simpl. split; [intros [] |].
      intros [[= ->] Hp]. congruence.
  - split; [intros [] | intros [[=] _]].
Qed.

Lemma field_is_true (f : option string) (s : string) :
  field_is f s = true <-> f = Some s.
Proof.
  destruct f as [t |]; simpl; [| split; discriminate].
  rewrite String.eqb_eq. split; [intros -> | intros [= ->]]; reflexivity.
Qed.

(** *** Create *)

(** The poster the create handler writes into the new document. *)
Lemma post_event_created
    (w : PostWorld) (events : gmap string EventDoc) (file : option File)
    (form : Form) :
  status (response (post_event w events file form)) = 201 ->
  exists doc,
    db (post_event w events file form) = <[new_id w := doc]> events
    /\ poster doc =
       match file with
       | Some f => {| ptype := Some "upload";
                      pvalue := Some ("/uploads/" ++ filename f) |}
       | None =>
           if field_is (posterType form) "url" && present (posterValue form)
           then {| ptype := posterType form; pvalue := posterValue form |}
           else {| ptype := Some "url"; pvalue := Some placeholder |}
       end.
Proof.
  unfold post_event.
  destruct file as [f |];
    [| destruct (field_is (posterType form) "url" && present (posterValue form))];
    (destruct (negb (present (eventName form)) || negb (present (eventDate form))
              || negb (present (academicYear form))
              || negb (present (eventLocation form))); [simpl; discriminate |]);
    (destruct (if present (speakers form) then parse_speakers (post_parsed w)
               else Some (JArr [])) as [sp |]; [| simpl; discriminate]);
    (destruct (save_error w) as [e |];
       [destruct e; simpl; discriminate |]);
    intros _; eexists; split; reflexivity.
Qed.

(** The create handler answers 201 once the four required fields are
    there, the speakers, if sent, are a list of objects, and the store
    takes the document. *)
Lemma post_event_succeeds
    (w : PostWorld) (events : gmap string EventDoc) (file : option File)
    (form : Form) :
  present (eventName form) = true -> present (eventDate form) = true ->
  present (academicYear form) = true -> present (eventLocation form) = true ->
  (present (speakers form) = true -> is_Some (parse_speakers (post_parsed w))) ->
  save_error w = None ->
  response (post_event w events file form)
  = {| status := 201; message := "Event saved successfully!" |}.
Proof.
  intros Hn Hd Hy Hl Hsp Hsave. unfold post_event.
  rewrite Hn, Hd, Hy, Hl, Hsave. simpl.
  destruct (present (speakers form)).
  - destruct (Hsp eq_refl) as [v ->].
    destruct file; [| destruct (_ && _)]; reflexivity.
  - destruct file; [| destruct (_ && _)]; reflexivity.
Qed.



Example create_without_poster_fields :
  db (post_event Samples.store_accepts ∅ None Samples.event_form)
  = {[ "e1"%string :=
       {| scalars := scalars_of Samples.event_form;
          d_speakers := Samples.speakers_list;
          poster := {| ptype := Some "url"; pvalue := Some placeholder |} |} ]}.
Proof. reflexivity. Qed.

Example create_with_url :
  poster <$> db (post_event Samples.store_accepts ∅ None
             (Samples.with_poster (Some "url") (Some "https://example.org/p.png")
                Samples.event_form)) !! "e1"%string
  = Some {| ptype := Some "url"; pvalue := Some "https://example.org/p.png" |}.
Proof. reflexivity. Qed.

(** *** Update *)

(** What an update does once it is past the lookup and the speakers:
    the 400 of an unknown poster type, or the files unlinked and then the
    answer of the store. *)
Lemma put_event_poster_step
    (w : PutWorld) (events : gmap string EventDoc) (id : string)
    (file : option File) (form : Form) (e : EventDoc) :
  reaches_poster_step w events id form e ->
  exists newSpeakers,
    put_event w events id file form =
    match poster_update e file form with
    | None =>
        {| response := {| status := 400;
             message := "Invalid poster type specified for update." |};
           db := events; unlinked := [] |}
    | Some (deleted, newPoster) =>
        match update_error w with
        | Some err =>
            {| response := put_catch err; db := events; unlinked := deleted |}
        | None =>
            {| response := {| status := 200;
                 message := "Event updated successfully!" |};
               db := <[id := apply_set (omit_undefined w) e
                               {| u_scalars := scalars_of form;
                                  u_speakers := newSpeakers;
                                  u_poster := newPoster |}]> events;
               unlinked := deleted |}
        end
    end.
Proof.
  intros (Hfind & Hdoc & Hsp). unfold put_event. rewrite Hfind, Hdoc.
  destruct (speakers form) as [text |].
  - destruct Hsp as [[=] | [v Hv]]. rewrite Hv. simpl.
    exists (Some v). reflexivity.
  - exists None. reflexivity.
Qed.

(** C7. An update that brings no file and no posterType leaves the
    poster of the stored event exactly as it was, whatever else it
    changes and however it ends, and hands no file to unlink. *)
Theorem update_without_poster_fields
    (w : PutWorld) (events : gmap string EventDoc) (id : string)
    (form : Form) (e : EventDoc) :
  events !! id = Some e ->
  present (posterType form) = false ->
  let r := put_event w events id None form in
  (exists e', db r !! id = Some e' /\ poster e' = poster e)
  /\ unlinked r = [].
Proof.
  intros Hdoc Hnone r. unfold r, put_event.
  destruct (find_error w) as [err |]; [simpl; eauto |].
  rewrite Hdoc.
  destruct (match speakers form with
            | Some _ => option_map Some (parse_speakers (put_parsed w))
            | None => Some None
            end) as [newSpeakers |]; [| simpl; eauto].
  unfold poster_update. rewrite Hnone.
  destruct (update_error w) as [err |]; simpl; [eauto |].
  split; [| reflexivity].
  eexists. split; [apply lookup_insert_eq | reflexivity].
Qed.

Lemma update_without_poster_fields_witness :
  let r := put_event Samples.update_accepted
             {[ "e1"%string := Samples.uploaded_event ]} "e1" None
             Samples.renamed_form in
  (exists e', db r !! "e1"%string = Some e'
     /\ poster e' = poster Samples.uploaded_event)
  /\ unlinked r = [].
Proof.
  apply (update_without_poster_fields Samples.update_accepted
           {[ "e1"%string := Samples.uploaded_event ]} "e1" Samples.renamed_form
           Samples.uploaded_event).
  - apply lookup_singleton_eq.
  - reflexivity.
Defined.

Example update_renames_and_keeps_poster :
  db (put_event Samples.update_accepted
        {[ "e1"%string := Samples.uploaded_event ]} "e1" None Samples.renamed_form)
    !! "e1"%string
  = Some {| scalars :=
              {| d_eventName := Some "Solidity, part two";
                 d_eventDate := Some "2025-01-15";
                 d_eventTime := Some "17:00";
                 d_eventLocation := Some "Lab 2";
                 d_eventLink := None;
                 d_academicYear := Some "2024-25";
                 d_description := None |};
            d_speakers := Samples.speakers_list;
            poster := poster Samples.uploaded_event |}.
Proof. vm_compute. reflexivity. Qed.

(** The files an update hands to unlink are decided by its poster step
    alone. *)
Lemma put_event_unlinked
    (w : PutWorld) (events : gmap string EventDoc) (id : string)
    (file : option File) (form : Form) (e : EventDoc)
    (deleted : list string) (newPoster : option Poster) :
  reaches_poster_step w events id form e ->
  poster_update e file form = Some (deleted, newPoster) ->
  unlinked (put_event w events id file form) = deleted
  /\ (update_error w = None ->
      exists e', db (put_event w events id file form) !! id = Some e'
        /\ poster e' = match newPoster with Some p => p | None => poster e end).
Proof.
  intros Hreach Hstep.
  destruct (put_event_poster_step w events id file form e Hreach) as (sp & ->).
  rewrite Hstep.
  destruct (update_error w) as [err |]; simpl.
  - split; [reflexivity | discriminate].
  - split; [reflexivity |]. intros _.
    eexists. split; [apply lookup_insert_eq | reflexivity].
Qed.

(** The update without a file whose posterType is url. *)
Lemma update_poster_step_url
    (w : PutWorld) (events : gmap string EventDoc) (id : string)
    (form : Form) (e : EventDoc) :
  reaches_poster_step w events id form e ->
  posterType form = Some "url"%string ->
  let r := put_event w events id None form in
  (forall p, In p (unlinked r)
     <-> ptype (poster e) = Some "upload"%string
         /\ pvalue (poster e) = Some p /\ String.prefix "/uploads/" p = true)
  /\ (update_error w = None ->
      exists e', db r !! id = Some e'
        /\ poster e' = {| ptype := Some "url"; pvalue := posterValue form |}).
Proof.
  intros Hreach Htype r.
  assert (Hstep : poster_update e None form
            = Some ((if field_is (ptype (poster e)) "upload"
                     then deleteOldPoster (pvalue (poster e)) else []),
                    Some {| ptype := Some "url"; pvalue := posterValue form |})).
  { unfold poster_update. rewrite Htype. reflexivity. }
  destruct (put_event_unlinked w events id None form e _ _ Hreach Hstep)
    as (Hun & Hdb).
  fold r in Hun, Hdb. rewrite Hun. split; [| exact Hdb].
  intros p. destruct (field_is (ptype (poster e)) "upload") eqn:Hkind.
  - apply field_is_true in Hkind. rewrite deleteOldPoster_In. tauto.
  - split; [intros [] |]. intros (Hup & _).
    apply field_is_true in Hup. congruence.
Qed.

(** The poster step of an update, as the code has it. In an update that
    reaches its poster step,
    on a stored event whose poster, if of kind upload, names a file below
    ['/uploads/'] (the handlers keep the collection so): when a file
    comes with the request, the file the previous poster value names is
    handed to unlink exactly when that value is a path below
    ['/uploads/'] -- so always when the previous kind was upload, and
    whatever the previous kind -- and the poster becomes kind upload with
    the new path; when no file comes and the posterType is url, the
    previous file is handed to unlink exactly when the previous kind was
    upload, and the poster becomes kind url with the posterValue of the
    request. Nothing else is unlinked. *)
Theorem update_poster_deletion
    (w : PutWorld) (events : gmap string EventDoc) (id : string)
    (file : option File) (form : Form) (e : EventDoc) :
  reaches_poster_step w events id form e ->
  upload_is_local e ->
  let r := put_event w events id file form in
  (forall f, file = Some f ->
     (forall p, In p (unlinked r)
        <-> pvalue (poster e) = Some p /\ String.prefix "/uploads/" p = true)
     /\ (ptype (poster e) = Some "upload"%string ->
         exists p, pvalue (poster e) = Some p /\ In p (unlinked r))
     /\ (update_error w = None ->
         exists e', db r !! id = Some e'
           /\ poster e' = {| ptype := Some "upload";
                             pvalue := Some ("/uploads/" ++ filename f) |}))
  /\ (file = None -> posterType form = Some "url"%string ->
     ((exists p, pvalue (poster e) = Some p /\ In p (unlinked r))
        <-> ptype (poster e) = Some "upload"%string)
     /\ (forall p, In p (unlinked r) -> pvalue (poster e) = Some p)
     /\ (update_error w = None ->
         exists e', db r !! id = Some e'
           /\ poster e' = {| ptype := Some "url"; pvalue := posterValue form |})).
Proof.
  intros Hreach Hlocal r. split.
  - intros f ->.
    destruct (put_event_unlinked w events id (Some f) form e _ _ Hreach eq_refl)
      as (Hun & Hdb).
    fold r in Hun, Hdb. rewrite Hun.
    split; [intros p; apply deleteOldPoster_In |].
    split; [| exact Hdb].
    intros Hkind. destruct (Hlocal Hkind) as (p & Hp & Hpre).
    exists p. split; [exact Hp |]. apply deleteOldPoster_In. tauto.
  - intros -> Htype.
    destruct (update_poster_step_url w events id form e Hreach Htype)
      as (Hun & Hdb).
    fold r in Hun, Hdb.
    split; [| split; [| exact Hdb]].
    + split.
      * intros (p & _ & Hin). apply Hun in Hin. tauto.
      * intros Hkind. destruct (Hlocal Hkind) as (p & Hp & Hpre).
        exists p. split; [exact Hp |]. apply Hun. tauto.
    + intros p Hin. apply Hun in Hin. tauto.
Qed.

Lemma update_poster_deletion_witness :
  let r := put_event Samples.update_accepted
             {[ "e1"%string := Samples.uploaded_event ]} "e1"
             (Some Samples.upload) Samples.event_form in
  In "/uploads/posterFile-1690000000000-42.png"%string (unlinked r)
  /\ exists e', db r !! "e1"%string = Some e'
       /\ poster e' = {| ptype := Some "upload";
            pvalue := Some "/uploads/posterFile-1700000000000-123456789.png" |}.
Proof.
  intros r.
  assert (Hreach : reaches_poster_step Samples.update_accepted
            {[ "e1"%string := Samples.uploaded_event ]} "e1"
            Samples.event_form Samples.uploaded_event).
  { split; [reflexivity |]. split; [apply lookup_singleton_eq |].
    right. eexists. reflexivity. }
  assert (Hlocal : upload_is_local Samples.uploaded_event).
  { intros _. eexists. split; reflexivity. }
  destruct (update_poster_deletion Samples.update_accepted
              {[ "e1"%string := Samples.uploaded_event ]} "e1"
              (Some Samples.upload) Samples.event_form Samples.uploaded_event
              Hreach Hlocal) as (Hfile & _).
  destruct (Hfile Samples.upload eq_refl) as (Hun & _ & Hdb).
  split.
  - apply Hun. split; reflexivity.
  - apply Hdb. reflexivity.
Defined.

Example update_to_url_deletes_the_upload :
  let r := put_event Samples.update_accepted
             {[ "e1"%string := Samples.uploaded_event ]} "e1" None
             (Samples.with_poster (Some "url") (Some "https://example.org/p.png")
                Samples.event_form) in
  unlinked r = ["/uploads/posterFile-1690000000000-42.png"%string]
  /\ poster <$> db r !! "e1"%string
     = Some {| ptype := Some "url"; pvalue := Some "https://example.org/p.png" |}.
Proof. split; vm_compute; reflexivity. Qed.

(** The create handler stores an event whose poster is of kind url and
    whose value is the public path of a file in the uploads directory,
    when the store takes it: it hands on the posterValue of the request
    as it came. *)
Example linked_event_is_created :
  db (post_event Samples.store_accepts ∅ None Samples.linking_form)
  = {[ "e1"%string := Samples.linked_event ]}.
Proof. reflexivity. Qed.

(** C8, on an event whose stored poster is of kind url with the public
    path of a file in the uploads directory as its value (the event the
    create request [Samples.linking_form] stores). The update that
    brings a new file is answered 200 and hands the file the old value
    names to unlink, although the previous kind was url: the branch for
    a new file calls [deleteOldPoster] without the test of the kind. So
    the rule, deleted exactly when the previous kind was upload, fails
    on this run, and the file is gone from the uploads directory. The
    two sibling places do test the kind: the same event updated to
    another URL without a file, and the same event deleted, hand nothing
    to unlink and the file stays. *)
Theorem update_deletes_file_of_url_poster :
  let created := post_event Samples.store_accepts ∅ None Samples.linking_form in
  let old := "/uploads/photo-1690000000000-42.png"%string in
  let r := put_event Samples.update_accepted (db created) "e1"
             (Some Samples.upload) Samples.event_form in
  let r_url := put_event Samples.update_accepted (db created) "e1" None
                 (Samples.with_poster (Some "url")
                    (Some "https://example.org/p.png") Samples.event_form) in
  let r_del := delete_event MoreSamples.delete_accepted (db created) "e1" in
  (status (response created) = 201
   /\ db created !! "e1"%string = Some Samples.linked_event
   /\ poster Samples.linked_event
      = {| ptype := Some "url"; pvalue := Some old |})
  /\ (status (response r) = 200
      /\ unlinked r = [old]
      /\ ~ deleted_iff_kind_upload Samples.linked_event r
      /\ (old ∉ disk_after (disk_with {[ old ]} (Some Samples.upload)) (unlinked r))
      /\ poster <$> db r !! "e1"%string
         = Some {| ptype := Some "upload";
                   pvalue := Some (public_path Samples.upload) |})
  /\ (status (response r_url) = 200
      /\ unlinked r_url = []
      /\ old ∈ disk_after {[ old ]} (unlinked r_url))
  /\ (status (response r_del) = 200
      /\ unlinked r_del = []
      /\ old ∈ disk_after {[ old ]} (unlinked r_del)).
Proof.
  intros created old r r_url r_del.
  assert (Hr : unlinked r = [old]) by reflexivity.
  assert (Hurl : unlinked r_url = []) by reflexivity.
  assert (Hdel : unlinked r_del = []) by reflexivity.
  assert (Hstays : old ∈ disk_after ({[ old ]} : gset string) []).
  { unfold disk_after. apply elem_of_difference. split.
    - apply elem_of_singleton. reflexivity.
    - apply not_elem_of_empty. }
  split; [| split; [| split]].
  - split; [reflexivity |]. split; [| reflexivity].
    vm_compute. reflexivity.
  - split; [reflexivity |]. split; [exact Hr |]. split; [| split].
    + intros [Hrule _].
      assert (Hkind : ptype (poster Samples.linked_event) = Some "upload"%string).
      { apply Hrule. exists old. split; [reflexivity |].
        rewrite Hr. left. reflexivity. }
      discriminate Hkind.
    + rewrite Hr. unfold disk_after. rewrite elem_of_difference.
      intros [_ Hnot]. apply Hnot. simpl.
      apply elem_of_union_l. apply elem_of_singleton. reflexivity.
    + vm_compute. reflexivity.
  - split; [reflexivity |]. split; [exact Hurl |]. rewrite Hurl. exact Hstays.
  - split; [reflexivity |]. split; [exact Hdel |]. rewrite Hdel. exact Hstays.
Qed.

(** *** Uploads of rejected creates *)

(** The create handler of events unlinks the upload in one place only:
    the rejection for a missing required field. *)
Lemma post_event_unlinked
    (w : PostWorld) (events : gmap string EventDoc) (file : option File)
    (form : Form) :
  unlinked (post_event w events file form)
  = if negb (present (eventName form)) || negb (present (eventDate form))
       || negb (present (academicYear form)) || negb (present (eventLocation form))
    then unlink_upload file
    else [].
Proof.
  unfold post_event.
  destruct file as [f |];
    [| destruct (field_is (posterType form) "url" && present (posterValue form))];
    (destruct (negb (present (eventName form)) || negb (present (eventDate form))
              || negb (present (academicYear form))
              || negb (present (eventLocation form))); [reflexivity |]);
    (destruct (if present (speakers form) then parse_speakers (post_parsed w)
               else Some (JArr [])) as [sp |]; [| reflexivity]);
    (destruct (save_error w) as [e |]; reflexivity).
Qed.

(** Nothing is persisted unless the answer is 201. *)
Lemma post_event_rejected_db
    (w : PostWorld) (events : gmap string EventDoc) (file : option File)
    (form : Form) :
  status (response (post_event w events file form)) <> 201 ->
  db (post_event w events file form) = events.
Proof.
  unfold post_event.
  destruct file as [f |];
    [| destruct (field_is (posterType form) "url" && present (posterValue form))];
    (destruct (negb (present (eventName form)) || negb (present (eventDate form))
              || negb (present (academicYear form))
              || negb (present (eventLocation form))); [reflexivity |]);
    (destruct (if present (speakers form) then parse_speakers (post_parsed w)
               else Some (JArr [])) as [sp |]; [| reflexivity]);
    (destruct (save_error w) as [e |]; [reflexivity |]);
    simpl; intros Hno; contradiction.
Qed.

(** The same for team members. *)
Lemma post_member_unlinked
    (w : TeamRoutes.PostWorld) (members : gmap string TeamRoutes.TeamMemberDoc)
    (file : option File) (form : TeamRoutes.Form) :
  TeamRoutes.unlinked (TeamRoutes.post_member w members file form)
  = if negb (present (TeamRoutes.name form))
       || negb (present (TeamRoutes.position form))
       || negb (present (TeamRoutes.academicYear form))
    then unlink_upload file
    else [].
Proof.
  unfold TeamRoutes.post_member.
  destruct file as [f |];
    [| destruct (field_is (TeamRoutes.photoType form) "url"
                 && present (TeamRoutes.photoValue form));
       [| destruct (field_is (TeamRoutes.photoType form) "import"
                    && present (TeamRoutes.photoValue form))]];
    (destruct (negb (present (TeamRoutes.name form))
              || negb (present (TeamRoutes.position form))
              || negb (present (TeamRoutes.academicYear form))); [reflexivity |]);
    (destruct (TeamRoutes.save_error w) as [e |]; reflexivity).
Qed.

Lemma upload_stays (disk : gset string) (f : File) :
  public_path f ∈ disk_after (disk_with disk (Some f)) [].
Proof.
  unfold disk_after, disk_with. simpl.
  apply elem_of_difference. split.
  - apply elem_of_union_l. apply elem_of_singleton. reflexivity.
  - apply not_elem_of_empty.
Qed.

Lemma upload_goes (disk : gset string) (f : File) :
  public_path f ∉ disk_after (disk_with disk (Some f)) (unlink_upload (Some f)).
Proof.
  unfold disk_after, disk_with, unlink_upload. simpl.
  rewrite elem_of_difference, elem_of_union. intros [_ Hnot].
  apply Hnot. apply elem_of_union_l. apply elem_of_singleton. reflexivity.
Qed.

(** C1, on three create requests that carry a file and are rejected.
    Speakers that are not JSON, an event the schema refuses for its
    empty speakers list, and a team member the schema refuses for the
    phone number: each is answered 400 and nothing is persisted, but no
    file is handed to unlink, so the upload stays in the uploads
    directory. Only the rejection for a missing required field (the
    fourth request) deletes the upload. *)
Theorem rejected_create_keeps_upload :
  let r1 := post_event Samples.parse_throws ∅ (Some Samples.upload)
              (Samples.with_speakers (Some "not json") Samples.event_form) in
  let r2 := post_event Samples.schema_refuses ∅ (Some Samples.upload)
              (Samples.with_speakers None Samples.event_form) in
  let r3 := TeamRoutes.post_member Samples.phone_refused ∅
              (Some Samples.photo_upload) Samples.member_form in
  let r4 := post_event Samples.store_accepts ∅ (Some Samples.upload)
              (Samples.without_name Samples.event_form) in
  (response r1 = {| status := 400;
       message := "Invalid speakers format. Must be a valid JSON array." |}
   /\ db r1 = ∅ /\ unlinked r1 = []
   /\ public_path Samples.upload
        ∈ disk_after (disk_with ∅ (Some Samples.upload)) (unlinked r1))
  /\ (response r2 = {| status := 400;
        message := "At least one speaker with a valid name and ID is required." |}
      /\ db r2 = ∅ /\ unlinked r2 = []
      /\ public_path Samples.upload
           ∈ disk_after (disk_with ∅ (Some Samples.upload)) (unlinked r2))
  /\ (TeamRoutes.response r3 = {| status := 400;
        message := "Please fill a valid phone number" |}
      /\ TeamRoutes.db r3 = ∅ /\ TeamRoutes.unlinked r3 = []
      /\ public_path Samples.photo_upload
           ∈ disk_after (disk_with ∅ (Some Samples.photo_upload))
               (TeamRoutes.unlinked r3))
  /\ (response r4 = {| status := 400;
        message := "Event name, date, academic year, and location are required." |}
      /\ db r4 = ∅
      /\ unlinked r4 = ["/uploads/posterFile-1700000000000-123456789.png"%string]
      /\ public_path Samples.upload
           ∉ disk_after (disk_with ∅ (Some Samples.upload)) (unlinked r4)).
Proof.
  intros r1 r2 r3 r4.
  split; [| split; [| split]].
  - repeat (split; [reflexivity |]). apply upload_stays.
  - repeat (split; [reflexivity |]). apply upload_stays.
  - repeat (split; [reflexivity |]). apply upload_stays.
  - repeat (split; [reflexivity |]). apply upload_goes.
Qed.

(** *** Posters of kind upload *)

Lemma prefix_uploads (name : string) :
  String.prefix "/uploads/" ("/uploads/" ++ name) = true.
Proof. simpl. repeat rewrite Ascii.eqb_refl. destruct name; reflexivity. Qed.

(** Every poster of kind upload the two handlers write names a file
    below ['/uploads/']. *)
Lemma post_event_uploads_are_local
    (w : PostWorld) (events : gmap string EventDoc) (file : option File)
    (form : Form) :
  uploads_are_local events ->
  uploads_are_local (db (post_event w events file form)).
Proof.
  intros Hinv.
  destruct (Z.eq_dec (status (response (post_event w events file form))) 201)
    as [H201 | Hno]; [| rewrite post_event_rejected_db by exact Hno; exact Hinv].
  destruct (post_event_created w events file form H201) as (doc & -> & Hposter).
  intros id doc' Hdoc'.
  destruct (decide (id = new_id w)) as [-> | Hne];
    [| rewrite lookup_insert_ne in Hdoc' by congruence; eapply Hinv; eassumption].
  rewrite lookup_insert_eq in Hdoc'. injection Hdoc' as <-.
  unfold upload_is_local. rewrite Hposter.
  destruct file as [f |].
  - intros _. eexists. split; [reflexivity | apply prefix_uploads].
  - destruct (field_is (posterType form) "url" && present (posterValue form))
      eqn:Hurl; simpl; [| discriminate].
    apply andb_true_iff in Hurl. destruct Hurl as [Hurl _].
    apply field_is_true in Hurl. rewrite Hurl. discriminate.
Qed.

Lemma put_event_uploads_are_local
    (w : PutWorld) (events : gmap string EventDoc) (id : string)
    (file : option File) (form : Form) :
  uploads_are_local events ->
  uploads_are_local (db (put_event w events id file form)).
Proof.
  intros Hinv. unfold put_event.
  destruct (find_error w); [exact Hinv |].
  destruct (events !! id) as [e |] eqn:He; [| exact Hinv].
  destruct (match speakers form with
            | Some _ => option_map Some (parse_speakers (put_parsed w))
            | None => Some None
            end) as [sp |]; [| exact Hinv].
  destruct (poster_update e file form) as [[deleted np] |] eqn:Hstep;
    [| exact Hinv].
  destruct (update_error w); [exact Hinv |]. simpl.
  intros id' doc Hdoc.
  destruct (decide (id' = id)) as [-> | Hne];
    [| rewrite lookup_insert_ne in Hdoc by congruence; eapply Hinv; eassumption].
  rewrite lookup_insert_eq in Hdoc. injection Hdoc as <-.
  unfold upload_is_local. simpl.
  unfold poster_update in Hstep. destruct file as [f |].
  - injection Hstep as <- <-. intros _.
    eexists. split; [reflexivity | apply prefix_uploads].
  - destruct (present (posterType form)).
    + destruct (field_is (posterType form) "url"); [| discriminate].
      injection Hstep as <- <-. simpl. discriminate.
    + injection Hstep as <- <-. apply (Hinv id e He).
Qed.

Lemma delete_event_uploads_are_local
    (w : DeleteWorld) (events : gmap string EventDoc) (id : string) :
  uploads_are_local events ->
  uploads_are_local (db (delete_event w events id)).
Proof.
  intros Hinv. unfold delete_event.
  destruct (del_find_error w); [exact Hinv |].
  destruct (events !! id) as [e |]; [| exact Hinv].
  destruct (delete_error w); [exact Hinv |]. simpl.
  intros id' doc Hdoc. apply lookup_delete_Some in Hdoc.
  destruct Hdoc as [_ Hdoc]. eapply Hinv; eassumption.
Qed.

(** Whatever requests the three routes have served on an empty
    collection, its posters of kind upload name files below
    ['/uploads/']. *)
Lemma served_uploads_are_local (calls : list Call) (events : gmap string EventDoc) :
  uploads_are_local events -> uploads_are_local (serve_all calls events).
Proof.
  revert events. induction calls as [| c calls IH]; intros events Hinv; simpl.
  - exact Hinv.
  - apply IH. destruct c as [w file form | w id file form | w id]; simpl.
    + apply post_event_uploads_are_local. exact Hinv.
    + apply put_event_uploads_are_local. exact Hinv.
    + apply delete_event_uploads_are_local. exact Hinv.
Qed.

Lemma empty_uploads_are_local : uploads_are_local ∅.
Proof. intros id doc Hdoc. rewrite lookup_empty in Hdoc. discriminate. Qed.

(** The collection of the deviating update is one the routes produce. *)
Example linked_event_is_served :
  serve_all [Post Samples.store_accepts None Samples.linking_form] ∅
  = {[ "e1"%string := Samples.linked_event ]}.
Proof. reflexivity. Qed.

End EventRoutesFacts.

(* ===================================================================== *)
(** ** Properties of the token check and of the guarded routes *)
(* ===================================================================== *)

Module TokenFacts.

Import AuthMiddleware.
Import AuthMiddlewareFacts.

Lemma split_not_nil (sep : ascii) (s : string) : split sep s <> [].
Proof.
  induction s as [| c rest IH]; simpl; [discriminate |].
  destruct (Ascii.eqb c sep); [discriminate |].
  destruct (split sep rest); discriminate.
Qed.

Lemma split_spaceless (a : string) :
  spaceless a = true -> split " " a = [a].
Proof.
  induction a as [| c rest IH]; simpl; [reflexivity |].
  intros H. apply andb_true_iff in H. destruct H as [Hc Hrest].
  apply negb_true_iff in Hc. rewrite Hc, (IH Hrest). reflexivity.
Qed.

Lemma split_at_first_space (a b : string) :
  spaceless a = true -> split " " (a ++ " " ++ b) = a :: split " " b.
Proof.
  induction a as [| c rest IH]; simpl; [reflexivity |].
  intros H. apply andb_true_iff in H. destruct H as [Hc Hrest].
  apply negb_true_iff in Hc. rewrite Hc, (IH Hrest). reflexivity.
Qed.

Lemma append_not_empty (a b : string) : (a ++ " " ++ b)%string <> EmptyString.
Proof. destruct a; discriminate. Qed.

(** What [authenticateToken] does, by the second piece of the header. *)
Lemma authenticateToken_token
    (w : TokenWorld) (req : Request) (header token : string) :
  authorization req = Some header ->
  header <> EmptyString ->
  nth_error (split " " header) 1 = Some token ->
  token <> EmptyString ->
  authenticateToken w req
  = match jwt_verify w token with
    | Some decoded =>
        Next {| authorization := Some header; user := get decoded "user" |}
    | None => Respond 401 "Token is not valid or expired"
    end.
Proof.
  intros Hauth Hheader Htoken Hne. unfold authenticateToken.
  rewrite Hauth. apply String.eqb_neq in Hheader. rewrite Hheader, Htoken.
  apply String.eqb_neq in Hne. rewrite Hne. reflexivity.
Qed.

Lemma authenticateToken_next (w : TokenWorld) (req req' : Request) :
  authenticateToken w req = Next req'
  <-> exists header token decoded,
        authorization req = Some header
        /\ nth_error (split " " header) 1 = Some token
        /\ token <> EmptyString
        /\ jwt_verify w token = Some decoded
        /\ req' = {| authorization := Some header; user := get decoded "user" |}.
Proof.
  split.
  - unfold authenticateToken.
    destruct (authorization req) as [header |] eqn:Hauth; [| discriminate].
    destruct (String.eqb header EmptyString); [discriminate |].
    destruct (nth_error (split " " header) 1) as [token |] eqn:Htoken;
      [| discriminate].
    destruct (String.eqb token EmptyString) eqn:Hne; [discriminate |].
    destruct (jwt_verify w token) as [decoded |] eqn:Hv; [| discriminate].
    intros [= <-]. exists header, token, decoded.
    apply String.eqb_neq in Hne.
    split; [reflexivity |]. split; [exact Htoken |]. split; [exact Hne |].
    split; [exact Hv | reflexivity].
  - intros (header & token & decoded & Hauth & Htoken & Hne & Hv & ->).
    assert (Hheader : header <> EmptyString).
    { intros ->. simpl in Htoken. discriminate. }
    rewrite (authenticateToken_token w req header token Hauth Hheader Htoken Hne).
    rewrite Hv. reflexivity.
Qed.

(** X1. [authenticateToken] hands a request on only when the second
    space-separated piece of its Authorization header is a non-empty
    token that [jwt.verify] accepts; the request it hands on has the
    [user] of the decoded payload as [req.user], whatever [req.user] was
    before, and the header as it came. *)
Theorem authenticateToken_sound (w : TokenWorld) (req req' : Request) :
  authenticateToken w req = Next req' ->
  exists header token decoded,
    authorization req = Some header
    /\ nth_error (split " " header) 1 = Some token
    /\ token <> EmptyString
    /\ jwt_verify w token = Some decoded
    /\ req' = {| authorization := Some header; user := get decoded "user" |}.
Proof.
  unfold authenticateToken.
  destruct (authorization req) as [header |] eqn:Hauth; [| discriminate].
  destruct (String.eqb header EmptyString); [discriminate |].
  destruct (nth_error (split " " header) 1) as [token |] eqn:Htoken;
    [| discriminate].
  destruct (String.eqb token EmptyString) eqn:Hne; [discriminate |].
  destruct (jwt_verify w token) as [decoded |] eqn:Hv; [| discriminate].
  intros [= <-]. exists header, token, decoded.
  apply String.eqb_neq in Hne. repeat split; assumption.
Qed.

Lemma authenticateToken_sound_witness :
  exists header token decoded,
    authorization (MoreSamples.bearer "Bearer abc.def.ghi") = Some header
    /\ nth_error (split " " header) 1 = Some token
    /\ token <> EmptyString
    /\ jwt_verify MoreSamples.one_token token = Some decoded
    /\ {| authorization := Some "Bearer abc.def.ghi";
          user := JObj [("id", JStr "admin_id_placeholder_from_authroutes");
                        ("role", JStr "admin")] |}
       = {| authorization := Some header; user := get decoded "user" |}.
Proof.
  apply (authenticateToken_sound MoreSamples.one_token
           (MoreSamples.bearer "Bearer abc.def.ghi")).
  reflexivity.
Defined.

(** X2. The word before the token is never looked at, and neither is
    anything after a second space: for every header made of a word
    without a space (empty or not), a space and a non-empty token without
    a space, with or without a further space and more text, the outcome
    is decided by [jwt.verify] on that token alone. *)
Theorem scheme_word_is_ignored
    (w : TokenWorld) (scheme token : string) (trailer : option string)
    (before : jsval) :
  spaceless scheme = true ->
  spaceless token = true ->
  token <> EmptyString ->
  let header :=
    match trailer with
    | Some more => scheme ++ " " ++ token ++ " " ++ more
    | None => scheme ++ " " ++ token
    end in
  authenticateToken w {| authorization := Some header; user := before |}
  = match jwt_verify w token with
    | Some decoded =>
        Next {| authorization := Some header; user := get decoded "user" |}
    | None => Respond 401 "Token is not valid or expired"
    end.
Proof.
  intros Hscheme Htoken Hne header.
  apply authenticateToken_token; [reflexivity | | | exact Hne].
  - unfold header. destruct trailer; apply append_not_empty.
  - unfold header. destruct trailer as [more |].
    + rewrite (split_at_first_space scheme _ Hscheme).
      rewrite (split_at_first_space token _ Htoken). reflexivity.
    + rewrite (split_at_first_space scheme _ Hscheme).
      rewrite (split_spaceless token Htoken). reflexivity.
Qed.

Lemma scheme_word_is_ignored_witness :
  authenticateToken MoreSamples.one_token
    (MoreSamples.bearer "Basic abc.def.ghi and more")
  = Next {| authorization := Some "Basic abc.def.ghi and more";
            user := JObj [("id", JStr "admin_id_placeholder_from_authroutes");
                          ("role", JStr "admin")] |}.
Proof.
  apply (scheme_word_is_ignored MoreSamples.one_token "Basic" "abc.def.ghi"
           (Some "and more"%string) JUndefined); [reflexivity | reflexivity |].
  discriminate.
Defined.

(** X3. Headers that are refused before [jwt.verify] is asked: a missing
    or empty header gets the no-token 401; a header without any space,
    and a header whose first space is followed by another space or by
    nothing, get the format-invalid 401, whatever the verifier would say
    of any part of them. *)
Theorem malformed_headers_are_refused
    (w : TokenWorld) (req : Request) (header : string) :
  (authorization req = None \/ authorization req = Some EmptyString ->
     authenticateToken w req = Respond 401 "No token, authorization denied")
  /\ (authorization req = Some header -> header <> EmptyString ->
      spaceless header = true ->
     authenticateToken w req
     = Respond 401 "Token format invalid, authorization denied")
  /\ (forall scheme rest,
        authorization req = Some (scheme ++ " " ++ rest)%string ->
        spaceless scheme = true ->
        rest = EmptyString \/ (exists more, rest = " " ++ more)%string ->
        authenticateToken w req
        = Respond 401 "Token format invalid, authorization denied").
Proof.
  split; [| split].
  - unfold authenticateToken. intros [-> | ->]; reflexivity.
  - intros Hauth Hne Hsp. unfold authenticateToken. rewrite Hauth.
    apply String.eqb_neq in Hne. rewrite Hne.
    rewrite (split_spaceless header Hsp). reflexivity.
  - intros scheme rest Hauth Hsp Hrest. unfold authenticateToken. rewrite Hauth.
    destruct (String.eqb (scheme ++ " " ++ rest) EmptyString) eqn:Hempty.
    { apply String.eqb_eq in Hempty. destruct (append_not_empty _ _ Hempty). }
    rewrite (split_at_first_space scheme rest Hsp).
    destruct Hrest as [-> | (more & ->)]; reflexivity.
Qed.

Lemma malformed_headers_are_refused_witness :
  authenticateToken MoreSamples.one_token (MoreSamples.bearer "Bearer  abc.def.ghi")
  = Respond 401 "Token format invalid, authorization denied".
Proof.
  apply (malformed_headers_are_refused MoreSamples.one_token
           (MoreSamples.bearer "Bearer  abc.def.ghi") "Bearer  abc.def.ghi"
           ) with (scheme := "Bearer"%string) (rest := " abc.def.ghi"%string).
  - reflexivity.
  - reflexivity.
  - right. exists "abc.def.ghi"%string. reflexivity.
Defined.

Lemma authorizeRoles_admin_next (req req' : Request) :
  authorizeRoles ["admin"%string] req = Next req'
  <-> req' = req /\ get (user req) "role" = JStr "admin".
Proof.
  unfold authorizeRoles, includes. simpl. split.
  - destruct (negb (truthy (user req)) || negb (truthy (get (user req) "role")));
      [discriminate |].
    destruct (is_str (get (user req) "role") "admin") eqn:Hrole; simpl;
      [| discriminate].
    intros [= <-]. split; [reflexivity |]. apply is_str_true. exact Hrole.
  - intros [-> Hrole].
    assert (Huser : truthy (user req) = true).
    { unfold get in Hrole. destruct (user req); try discriminate. reflexivity. }
    rewrite Huser, Hrole. reflexivity.
Qed.

(** X4. A request reaches the handler of an admin route exactly when
    the token of its header verifies and the decoded user has the role
    text admin; the handler then sees that decoded user as [req.user]. *)
Theorem admin_only_passes (w : TokenWorld) (req req' : Request) :
  admin_only w req = Next req'
  <-> exists header token decoded,
        authorization req = Some header
        /\ nth_error (split " " header) 1 = Some token
        /\ token <> EmptyString
        /\ jwt_verify w token = Some decoded
        /\ get (get decoded "user") "role" = JStr "admin"
        /\ req' = {| authorization := Some header; user := get decoded "user" |}.
Proof.
  unfold admin_only, and_then. split.
  - destruct (authenticateToken w req) as [st msg | mid] eqn:Hfirst; [discriminate |].
    apply authenticateToken_next in Hfirst.
    destruct Hfirst as (header & token & decoded & Hauth & Htoken & Hne & Hv & ->).
    intros Hsecond. apply authorizeRoles_admin_next in Hsecond.
    destruct Hsecond as [-> Hrole].
    exists header, token, decoded. repeat split; assumption.
  - intros (header & token & decoded & Hauth & Htoken & Hne & Hv & Hrole & ->).
    assert (Hfirst : authenticateToken w req
              = Next {| authorization := Some header; user := get decoded "user" |}).
    { apply authenticateToken_next. exists header, token, decoded.
      repeat split; assumption. }
    rewrite Hfirst. apply authorizeRoles_admin_next. split; [reflexivity | exact Hrole].
Qed.

End TokenFacts.

(* ===================================================================== *)
(** ** Further properties of the one-time passcodes *)
(* ===================================================================== *)

Module PasscodeFacts.

Import AuthRoutes.
Import AuthMiddlewareFacts.
Import AuthRoutesFacts.

(** *** The alphabet of the code *)

Lemma hex_digit_is_hex (n : N) : is_hex_digit (hex_digit n) = true.
Proof.
  destruct n as [| p]; [reflexivity |].
  destruct p as [p | p |]; try reflexivity;
    destruct p as [p | p |]; try reflexivity;
    destruct p as [p | p |]; try reflexivity;
    destruct p as [p | p |]; reflexivity.
Qed.

Lemma hex_all_hex (bytes : list byte) : all_chars is_hex_digit (hex bytes) = true.
Proof.
  induction bytes as [| b rest IH]; [reflexivity |].
  cbn [hex all_chars]. rewrite !hex_digit_is_hex, IH. reflexivity.
Qed.

(** X5. Every code generate-otp issues has six characters, each one of
    0-9 and a-f. *)
Theorem issued_code_format (r : Random3) :
  String.length (new_otp r) = 6%nat
  /\ all_chars is_hex_digit (new_otp r) = true.
Proof. split; [apply new_otp_length | apply hex_all_hex]. Qed.

Lemma small_N_cases (n : N) :
  (n < 16)%N ->
  n = 0%N \/ n = 1%N \/ n = 2%N \/ n = 3%N \/ n = 4%N \/ n = 5%N \/ n = 6%N
  \/ n = 7%N \/ n = 8%N \/ n = 9%N \/ n = 10%N \/ n = 11%N \/ n = 12%N
  \/ n = 13%N \/ n = 14%N \/ n = 15%N.
Proof. lia. Qed.

Lemma hex_digit_inj (n m : N) :
  (n < 16)%N -> (m < 16)%N -> hex_digit n = hex_digit m -> n = m.
Proof.
  intros Hn Hm.
  destruct (small_N_cases n Hn)
    as [-> | [-> | [-> | [-> | [-> | [-> | [-> | [-> | [-> | [-> | [-> | [->
        | [-> | [-> | [-> | ->]]]]]]]]]]]]]]];
    destruct (small_N_cases m Hm)
      as [-> | [-> | [-> | [-> | [-> | [-> | [-> | [-> | [-> | [-> | [-> | [->
          | [-> | [-> | [-> | ->]]]]]]]]]]]]]]];
    intros H; first [reflexivity | discriminate H].
Qed.

Lemma byte_digits_inj (a b : byte) :
  hex_digit (Byte.to_N a / 16) = hex_digit (Byte.to_N b / 16) ->
  hex_digit (Byte.to_N a mod 16) = hex_digit (Byte.to_N b mod 16) ->
  a = b.
Proof.
  intros Hhi Hlo.
  pose proof (Byte.to_N_bounded a) as Ha.
  pose proof (Byte.to_N_bounded b) as Hb.
  assert (Hdiv : (Byte.to_N a / 16 = Byte.to_N b / 16)%N).
  { apply hex_digit_inj; [| | exact Hhi];
      apply N.Div0.div_lt_upper_bound; lia. }
  assert (Hmod : (Byte.to_N a mod 16 = Byte.to_N b mod 16)%N).
  { apply hex_digit_inj; [| | exact Hlo]; apply N.mod_lt; lia. }
  assert (Heq : Byte.to_N a = Byte.to_N b).
  { rewrite (N.div_mod (Byte.to_N a) 16) by lia.
    rewrite (N.div_mod (Byte.to_N b) 16) by lia.
    rewrite Hdiv, Hmod. reflexivity. }
  pose proof (Byte.of_to_N a) as Hofa. rewrite Heq, Byte.of_to_N in Hofa.
  injection Hofa as <-. reflexivity.
Qed.

Lemma hex_inj (l1 l2 : list byte) : hex l1 = hex l2 -> l1 = l2.
Proof.
  revert l2. induction l1 as [| a l1 IH]; intros [| b l2]; simpl;
    try discriminate; [reflexivity |].
  intros H. injection H as Hhi Hlo Hrest.
  f_equal; [apply byte_digits_inj; assumption | apply IH; exact Hrest].
Qed.

(** X6. The code determines the random bytes it was made from: two
    issuances have the same code only when [crypto.randomBytes] returned
    the same three bytes. *)
Theorem issued_code_determines_bytes (r1 r2 : Random3) :
  new_otp r1 = new_otp r2 <-> r1 = r2.
Proof.
  split; [| intros ->; reflexivity].
  unfold new_otp. intros H. apply hex_inj in H.
  destruct r1, r2. simpl in H. congruence.
Qed.

(** *** Guesses and re-issuance *)

Lemma wrong_code_keeps_store
    (env : Env) (w : VerifyWorld) (store : gmap string OtpEntry)
    (body : VerifyBody) (d : OtpEntry) :
  store !! store_key env = Some d ->
  v_otp body <> JStr (otp d) ->
  verify_otp env w store body = (reply 400 "Invalid admin email.", store)
  \/ verify_otp env w store body = (invalid_or_expired, store).
Proof.
  intros Hd Hcode. unfold verify_otp.
  destruct (strict_eq_env (v_email body) (CLUB_EMAIL env)); simpl;
    [| left; reflexivity].
  right. rewrite Hd. simpl.
  destruct (is_str (v_otp body) (otp d)) eqn:Heq.
  - apply is_str_true in Heq. contradiction.
  - reflexivity.
Qed.

(** X7. Verifies with a wrong code never touch the store, however many
    there are and whatever email, time or services they come with: the
    entry is neither consumed nor blocked, and a verify with the right
    code before the expiry is accepted afterwards as if nothing had
    happened. *)
Theorem wrong_guesses_change_nothing
    (env : Env) (store : gmap string OtpEntry) (d : OtpEntry)
    (attempts : list (VerifyWorld * VerifyBody))
    (w : VerifyWorld) (body : VerifyBody) :
  store !! store_key env = Some d ->
  Forall (fun a => v_otp (snd a) <> JStr (otp d)) attempts ->
  let store' :=
    serve_all env (map (fun a => Verify (fst a) (snd a)) attempts) store in
  store' = store
  /\ (strict_eq_env (v_email body) (CLUB_EMAIL env) = true ->
      v_otp body = JStr (otp d) ->
      v_now w <= expires d ->
      verify_otp env w store' body = (login w, delete (store_key env) store)).
Proof.
  intros Hd Hall store'.
  assert (Hsame : store' = store).
  { unfold store', serve_all. induction Hall as [| [aw ab] rest Hwrong _ IH];
      simpl; [reflexivity |].
    destruct (wrong_code_keeps_store env aw store ab d Hd Hwrong) as [-> | ->];
      exact IH. }
  split; [exact Hsame |].
  intros Hemail Hcode Hnow. rewrite Hsame.
  apply verify_otp_accepts with d; assumption.
Qed.

Lemma wrong_guesses_change_nothing_witness :
  let store1 := snd (generate_otp Samples.env Samples.issue_unsent ∅ Samples.credentials) in
  let store' :=
    serve_all Samples.env
      [Verify Samples.healthy Samples.second_code;
       Verify Samples.db_down Samples.second_code;
       Verify Samples.late Samples.second_code] store1 in
  store' = store1
  /\ fst (verify_otp Samples.env Samples.healthy store' Samples.code)
     = logged_in "jwt-for-admin_id_placeholder_from_authroutes".
Proof.
  intros store1 store'.
  destruct (wrong_guesses_change_nothing Samples.env store1
              (issued Samples.issue_unsent)
              [(Samples.healthy, Samples.second_code);
               (Samples.db_down, Samples.second_code);
               (Samples.late, Samples.second_code)]
              Samples.healthy Samples.code) as [Hsame Hright].
  - apply generate_otp_lookup; reflexivity.
  - repeat constructor; discriminate.
  - split; [exact Hsame |].
    change (fst (verify_otp Samples.env Samples.healthy store' Samples.code)
            = logged_in "jwt-for-admin_id_placeholder_from_authroutes").
    unfold store'. simpl map in Hright.
    rewrite Hright; [reflexivity | reflexivity | reflexivity | vm_compute; discriminate].
Defined.

(** X8. A second issuance puts its own entry in place of the first:
    the expiry is counted from the second issuance, and unless the two
    codes happen to be equal the first code is refused from then on,
    even inside its own ten minutes, without touching the new entry. *)
Theorem reissue_replaces_code
    (env : Env) (store : gmap string OtpEntry) (creds : GenerateBody)
    (gw1 gw2 : GenerateWorld) (w : VerifyWorld) :
  strict_eq_env (g_email creds) (CLUB_EMAIL env) = true ->
  strict_eq_env (g_adminSecret creds) (ADMIN_SECRET env) = true ->
  new_otp (random gw1) <> new_otp (random gw2) ->
  let store1 := snd (generate_otp env gw1 store creds) in
  let store2 := snd (generate_otp env gw2 store1 creds) in
  store2 !! store_key env
  = Some {| otp := new_otp (random gw2); expires := g_now gw2 + 10 * 60 * 1000 |}
  /\ verify_otp env w store2
       {| v_email := g_email creds; v_otp := JStr (new_otp (random gw1)) |}
     = (invalid_or_expired, store2).
Proof.
  intros Hemail Hsecret Hdiff store1 store2.
  assert (Hnew : store2 !! store_key env = Some (issued gw2))
    by (apply generate_otp_lookup; assumption).
  split; [exact Hnew |].
  apply verify_otp_rejects; [exact Hemail |].
  rewrite Hnew. unfold otp_rejected. apply orb_true_iff. left.
  apply negb_true_iff. cbn [v_otp].
  destruct (is_str (JStr (new_otp (random gw1))) (otp (issued gw2))) eqn:Heq;
    [| reflexivity].
  apply is_str_true in Heq.
  change (otp (issued gw2)) with (new_otp (random gw2)) in Heq.
  exfalso. apply Hdiff. congruence.
Qed.

Lemma reissue_replaces_code_witness :
  let store2 :=
    snd (generate_otp Samples.env Samples.reissue
           (snd (generate_otp Samples.env Samples.issue_unsent ∅ Samples.credentials))
           Samples.credentials) in
  store2 !! "club@example.org"%string
  = Some {| otp := "c0ffee"; expires := 661000 |}
  /\ verify_otp Samples.env Samples.healthy store2 Samples.code
     = (invalid_or_expired, store2).
Proof.
  apply (reissue_replaces_code Samples.env ∅ Samples.credentials
           Samples.issue_unsent Samples.reissue Samples.healthy);
    [reflexivity | reflexivity | vm_compute; discriminate].
Defined.

(** *** The mail *)

Lemma strict_eq_env_value (v : jsval) (e : option string) :
  strict_eq_env v e = true <-> v = env_value e.
Proof.
  destruct v as [| | b | n | t | items | props], e as [s |]; simpl;
    try (split; [discriminate | intros [=]]);
    try (split; reflexivity).
  rewrite String.eqb_eq. split; [intros -> | intros [= ->]]; reflexivity.
Qed.

(** X9. The message generate-otp hands to the transporter is addressed
    to the configured club address and sent from it, whatever the request
    says, and the code in its text is the code the same run has put into
    the store; a run that is answered 400 or 401 hands over no message
    and stores nothing, and these are the only runs without a message. *)
Theorem otp_mail_goes_to_club_address
    (env : Env) (w : GenerateWorld) (store : gmap string OtpEntry)
    (body : GenerateBody) :
  (forall m, generate_otp_mail env w body = Some m ->
     to m = env_value (CLUB_EMAIL env)
     /\ from m = CLUB_EMAIL env
     /\ exists d, snd (generate_otp env w store body) !! store_key env = Some d
          /\ html m = otp_html (otp d))
  /\ (status (fst (generate_otp env w store body)) = 400
      \/ status (fst (generate_otp env w store body)) = 401 ->
      generate_otp_mail env w body = None
      /\ snd (generate_otp env w store body) = store)
  /\ (generate_otp_mail env w body = None ->
      generate_otp env w store body = (reply 400 "Invalid admin email.", store)
      \/ generate_otp env w store body
         = (reply 401 "Invalid Admin Secret Key.", store)).
Proof.
  unfold generate_otp_mail, generate_otp.
  destruct (strict_eq_env (g_email body) (CLUB_EMAIL env)) eqn:Hemail; simpl.
  - destruct (strict_eq_env (g_adminSecret body) (ADMIN_SECRET env)); simpl.
    + split; [| split; [| discriminate]].
      * intros m [= <-]. simpl.
        split; [apply strict_eq_env_value; exact Hemail |].
        split; [reflexivity |].
        exists (issued w). split; [| reflexivity].
        destruct (mail_sent w); simpl; apply lookup_insert_eq.
      * destruct (mail_sent w); simpl; intros [Hst | Hst]; discriminate Hst.
    + split; [discriminate |]. split; [intros _; split; reflexivity |].
      intros _. right. reflexivity.
  - split; [discriminate |]. split; [intros _; split; reflexivity |].
    intros _. left. reflexivity.
Qed.

Lemma otp_mail_goes_to_club_address_witness :
  (exists m,
    generate_otp_mail Samples.env Samples.reissue Samples.credentials = Some m
    /\ to m = JStr "club@example.org"
    /\ from m = Some "club@example.org"%string
    /\ html m = otp_html "c0ffee")
  /\ generate_otp_mail Samples.env Samples.reissue
       {| g_email := JStr "club@example.org"; g_adminSecret := JStr "guess" |}
     = None.
Proof.
  split.
  - destruct (otp_mail_goes_to_club_address Samples.env Samples.reissue ∅
                Samples.credentials) as [Hmail _].
    eexists. split; [reflexivity |].
    destruct (Hmail _ eq_refl) as (Hto & Hfrom & d & Hd & Hhtml).
    split; [exact Hto |]. split; [exact Hfrom |]. reflexivity.
  - destruct (otp_mail_goes_to_club_address Samples.env Samples.reissue ∅
                {| g_email := JStr "club@example.org";
                   g_adminSecret := JStr "guess" |}) as (_ & Hnone & _).
    apply Hnone. right. reflexivity.
Defined.

(** *** From the login to the guarded routes *)

Lemma test_protected_bearer
    (tw : AuthMiddleware.TokenWorld) (t : string) (decoded before : jsval) :
  AuthMiddleware.spaceless t = true ->
  t <> EmptyString ->
  AuthMiddleware.jwt_verify tw t = Some decoded ->
  test_protected tw
    {| AuthMiddleware.authorization := Some ("Bearer " ++ t)%string;
       AuthMiddleware.user := before |}
  = match AuthMiddleware.authorizeRoles ["admin"%string]
            {| AuthMiddleware.authorization := Some ("Bearer " ++ t)%string;
               AuthMiddleware.user := get decoded "user" |} with
    | AuthMiddleware.Respond status message => Denied status message
    | AuthMiddleware.Next req' =>
        Granted "You have access to protected data!" (AuthMiddleware.user req')
    end.
Proof.
  intros Hsp Hne Hv. unfold test_protected, AuthMiddleware.admin_only,
    AuthMiddleware.and_then.
  rewrite (TokenFacts.authenticateToken_token tw _ ("Bearer " ++ t)%string t);
    [rewrite Hv; reflexivity | reflexivity | discriminate | | exact Hne].
  change ("Bearer " ++ t)%string with ("Bearer" ++ " " ++ t)%string.
  rewrite TokenFacts.split_at_first_space by reflexivity.
  rewrite (TokenFacts.split_spaceless t Hsp). reflexivity.
Qed.

(** X10. Take a token that [jwt.verify] decodes to the user of the
    payload the login signed, sent as [Bearer <token>]. The guarded route
    grants it exactly when the role of that payload is the text admin:
    always for the placeholder identity the login falls back to when no
    admin user is stored, and for a stored user only if its role field is
    admin; otherwise the answer is a 403. *)
Theorem login_token_at_the_gate
    (tw : AuthMiddleware.TokenWorld) (t : string) (found : FindResult)
    (decoded before : jsval) :
  AuthMiddleware.spaceless t = true ->
  t <> EmptyString ->
  AuthMiddleware.jwt_verify tw t = Some decoded ->
  get decoded "user" = get (payload_json (payload_of found)) "user" ->
  let reply :=
    test_protected tw
      {| AuthMiddleware.authorization := Some ("Bearer " ++ t)%string;
         AuthMiddleware.user := before |} in
  (user_role (payload_of found) = JStr "admin" ->
     reply = Granted "You have access to protected data!"
               (JObj [("id", JStr (user_id (payload_of found)));
                      ("role", JStr "admin")]))
  /\ (user_role (payload_of found) <> JStr "admin" ->
      exists message, reply = Denied 403 message)
  /\ (found = NotFound ->
      reply = Granted "You have access to protected data!"
                (JObj [("id", JStr "admin_id_placeholder_from_authroutes");
                       ("role", JStr "admin")])).
Proof.
  intros Hsp Hne Hv Huser reply.
  assert (Hreply := test_protected_bearer tw t decoded before Hsp Hne Hv).
  fold reply in Hreply. rewrite Huser in Hreply. simpl get in Hreply.
  assert (Hadmin : user_role (payload_of found) = JStr "admin" ->
     reply = Granted "You have access to protected data!"
               (JObj [("id", JStr (user_id (payload_of found)));
                      ("role", JStr "admin")])).
  { intros Hrole. rewrite Hreply, Hrole. reflexivity. }
  split; [exact Hadmin |]. split.
  - intros Hrole. rewrite Hreply.
    unfold AuthMiddleware.authorizeRoles, AuthMiddleware.includes. simpl.
    destruct (truthy (user_role (payload_of found))); simpl;
      [| eexists; reflexivity].
    destruct (is_str (user_role (payload_of found)) "admin") eqn:Hstr; simpl;
      [| eexists; reflexivity].
    apply is_str_true in Hstr. contradiction.
  - intros ->. apply Hadmin. reflexivity.
Qed.

Lemma login_token_at_the_gate_witness :
  login MoreSamples.signs_one_token = logged_in "abc.def.ghi"
  /\ test_protected MoreSamples.one_token (MoreSamples.bearer "Bearer abc.def.ghi")
     = Granted "You have access to protected data!"
         (JObj [("id", JStr "admin_id_placeholder_from_authroutes");
                ("role", JStr "admin")]).
Proof.
  split; [reflexivity |].
  destruct (login_token_at_the_gate MoreSamples.one_token "abc.def.ghi" NotFound
              (JObj [("user", JObj [("id", JStr "admin_id_placeholder_from_authroutes");
                                    ("role", JStr "admin")]);
                     ("iat", JNum 1700000000); ("exp", JNum 1700003600)])
              JUndefined)
    as (_ & _ & Hplaceholder);
    [reflexivity | discriminate | reflexivity | reflexivity |].
  apply Hplaceholder. reflexivity.
Defined.

End PasscodeFacts.

(* ===================================================================== *)
(** ** Further properties of the event handlers *)
(* ===================================================================== *)

Module EventHandlerFacts.

Import EventRoutes.
Import EventRoutesFacts.

(** *** Delete *)

Lemma delete_event_found
    (w : DeleteWorld) (events : gmap string EventDoc) (id : string) (e : EventDoc) :
  del_find_error w = None ->
  events !! id = Some e ->
  (forall p, In p (unlinked (delete_event w events id))
     <-> ptype (poster e) = Some "upload"%string
         /\ pvalue (poster e) = Some p /\ String.prefix "/uploads/" p = true)
  /\ match delete_error w with
     | None =>
         response (delete_event w events id)
         = {| status := 200; message := "Event deleted successfully!" |}
         /\ db (delete_event w events id) = delete id events
     | Some err =>
         response (delete_event w events id) = delete_catch err
         /\ db (delete_event w events id) = events
     end.
Proof.
  intros Hfind He. unfold delete_event. rewrite Hfind, He.
  split.
  - intros p.
    assert (Hlist : forall l, In p l <-> In p
              (unlinked (match delete_error w with
                         | Some err => {| response := delete_catch err;
                                          db := events; unlinked := l |}
                         | None => {| response := {| status := 200;
                                        message := "Event deleted successfully!" |};
                                      db := delete id events; unlinked := l |}
                         end))).
    { intros l. destruct (delete_error w); reflexivity. }
    rewrite <- Hlist.
    destruct (field_is (ptype (poster e)) "upload") eqn:Hkind; simpl.
    + apply field_is_true in Hkind.
      destruct (present (pvalue (poster e))) eqn:Hpresent.
      * rewrite deleteOldPoster_In. tauto.
      * split; [intros [] |]. intros (_ & Hp & Hpre).
        rewrite Hp in Hpresent. simpl in Hpresent.
        rewrite (prefix_not_empty p Hpre) in Hpresent. discriminate.
    + split; [intros [] |]. intros (Hup & _).
      apply field_is_true in Hup. congruence.
  - destruct (delete_error w); split; reflexivity.
Qed.

Lemma delete_catch_status (err : DbError) :
  status (delete_catch err) = 400 \/ status (delete_catch err) = 500.
Proof. destruct err; simpl; auto. Qed.

(** X11. A delete answered 200 has removed exactly the event of the
    path from the collection, and has handed to unlink the file its
    poster names exactly when the poster was of kind upload with a value
    below ['/uploads/']; nothing else is unlinked. *)
Theorem delete_event_cascade
    (w : DeleteWorld) (events : gmap string EventDoc) (id : string) :
  let r := delete_event w events id in
  status (response r) = 200 ->
  exists e,
    events !! id = Some e
    /\ db r !! id = None
    /\ (forall id', id' <> id -> db r !! id' = events !! id')
    /\ (forall p, In p (unlinked r)
          <-> ptype (poster e) = Some "upload"%string
              /\ pvalue (poster e) = Some p /\ String.prefix "/uploads/" p = true).
Proof.
  intros r H200.
  destruct (del_find_error w) as [err |] eqn:Hfind.
  { unfold r, delete_event in H200. rewrite Hfind in H200. simpl in H200.
    destruct (delete_catch_status err) as [H | H]; rewrite H in H200; discriminate. }
  destruct (events !! id) as [e |] eqn:He.
  2:{ unfold r, delete_event in H200. rewrite Hfind, He in H200. discriminate. }
  destruct (delete_event_found w events id e Hfind He) as [Hun Hres].
  fold r in Hun, Hres. exists e. split; [reflexivity |].
  destruct (delete_error w) as [err |].
  { destruct Hres as [Hresp _]. rewrite Hresp in H200.
    destruct (delete_catch_status err) as [H | H]; rewrite H in H200; discriminate. }
  destruct Hres as [_ Hdb]. rewrite Hdb.
  split; [apply lookup_delete_eq |].
  split; [intros id' Hne; apply lookup_delete_ne; congruence | exact Hun].
Qed.

Lemma delete_event_cascade_witness :
  let r := delete_event MoreSamples.delete_accepted
             {[ "e1"%string := Samples.uploaded_event ]} "e1" in
  exists e,
    ({[ "e1"%string := Samples.uploaded_event ]} : gmap string EventDoc) !! "e1"%string
      = Some e
    /\ db r !! "e1"%string = None
    /\ (forall id', id' <> "e1"%string ->
          db r !! id' = ({[ "e1"%string := Samples.uploaded_event ]}
                           : gmap string EventDoc) !! id')
    /\ (forall p, In p (unlinked r)
          <-> ptype (poster e) = Some "upload"%string
              /\ pvalue (poster e) = Some p /\ String.prefix "/uploads/" p = true).
Proof.
  apply (delete_event_cascade MoreSamples.delete_accepted
           {[ "e1"%string := Samples.uploaded_event ]} "e1").
  vm_compute. reflexivity.
Defined.

(** X12. The delete handler unlinks the poster file before it asks the
    store to delete: when the event is found and the store then rejects
    the deletion, the answer is a 400 or 500 and the event stays in the
    collection, yet the file of its uploaded poster has been handed to
    unlink all the same. *)
Theorem delete_event_store_failure
    (w : DeleteWorld) (events : gmap string EventDoc) (id : string)
    (e : EventDoc) (err : DbError) (p : string) :
  del_find_error w = None ->
  events !! id = Some e ->
  delete_error w = Some err ->
  ptype (poster e) = Some "upload"%string ->
  pvalue (poster e) = Some p ->
  String.prefix "/uploads/" p = true ->
  let r := delete_event w events id in
  (status (response r) = 400 \/ status (response r) = 500)
  /\ db r = events
  /\ unlinked r = [p].
Proof.
  intros Hfind He Herr Hkind Hp Hpre r.
  unfold r, delete_event. rewrite Hfind, He, Herr. simpl.
  split; [apply delete_catch_status |]. split; [reflexivity |].
  rewrite Hkind, Hp. cbn [field_is present deleteOldPoster].
  rewrite String.eqb_refl, (prefix_not_empty p Hpre), Hpre. reflexivity.
Qed.

Lemma delete_event_store_failure_witness :
  let r := delete_event MoreSamples.delete_refused
             {[ "e1"%string := Samples.uploaded_event ]} "e1" in
  (status (response r) = 400 \/ status (response r) = 500)
  /\ db r = {[ "e1"%string := Samples.uploaded_event ]}
  /\ unlinked r = ["/uploads/posterFile-1690000000000-42.png"%string].
Proof.
  apply (delete_event_store_failure MoreSamples.delete_refused
           {[ "e1"%string := Samples.uploaded_event ]} "e1"
           Samples.uploaded_event OtherError
           "/uploads/posterFile-1690000000000-42.png");
    first [reflexivity | apply lookup_singleton_eq].
Defined.

(** *** Updates that fail *)

Lemma put_catch_status (err : DbError) :
  status (put_catch err) = 400 \/ status (put_catch err) = 500.
Proof. destruct err; simpl; auto. Qed.

Lemma poster_update_unlinked
    (e : EventDoc) (file : option File) (form : Form)
    (deleted : list string) (newPoster : option Poster) :
  poster_update e file form = Some (deleted, newPoster) ->
  forall p, In p deleted ->
    pvalue (poster e) = Some p /\ String.prefix "/uploads/" p = true.
Proof.
  unfold poster_update. intros Hstep p Hin.
  destruct file as [f |].
  - injection Hstep as <- _. apply deleteOldPoster_In. exact Hin.
  - destruct (present (posterType form)).
    + destruct (field_is (posterType form) "url"); [| discriminate].
      injection Hstep as <- _.
      destruct (field_is (ptype (poster e)) "upload"); [| destruct Hin].
      apply deleteOldPoster_In. exact Hin.
    + injection Hstep as <- _. destruct Hin.
Qed.

(** X13. An update that is not answered 200 leaves the collection as it
    was. It unlinks the file it came with only on the 404 of an unknown
    event; on every other failure (lookup error, speakers that do not
    parse, unknown poster type, rejection by the store) the only file it
    can have unlinked is the one the previous poster names, so the new
    upload stays in the uploads directory. *)
Theorem failed_update_effects
    (w : PutWorld) (events : gmap string EventDoc) (id : string)
    (file : option File) (form : Form) :
  let r := put_event w events id file form in
  status (response r) <> 200 ->
  db r = events
  /\ (status (response r) = 404 ->
      events !! id = None /\ unlinked r = unlink_upload file)
  /\ (status (response r) <> 404 ->
      forall p, In p (unlinked r) ->
        exists e, events !! id = Some e
          /\ pvalue (poster e) = Some p /\ String.prefix "/uploads/" p = true).
Proof.
  intros r. unfold r, put_event.
  destruct (find_error w) as [err |].
  { simpl. intros _. split; [reflexivity |]. split.
    - intros H404. destruct (put_catch_status err) as [H | H];
        rewrite H in H404; discriminate.
    - intros _ p []. }
  destruct (events !! id) as [e |] eqn:He.
  2:{ simpl. intros _. split; [reflexivity |]. split.
      - intros _. split; reflexivity.
      - intros Hno. contradiction. }
  destruct (match speakers form with
            | Some _ => option_map Some (parse_speakers (put_parsed w))
            | None => Some None
            end) as [sp |].
  2:{ simpl. intros _. split; [reflexivity |]. split; [discriminate |].
      intros _ p []. }
  destruct (poster_update e file form) as [[deleted np] |] eqn:Hstep.
  2:{ simpl. intros _. split; [reflexivity |]. split; [discriminate |].
      intros _ p []. }
  destruct (update_error w) as [err |]; simpl.
  - intros _. split; [reflexivity |]. split.
    + intros H404. destruct (put_catch_status err) as [H | H];
        rewrite H in H404; discriminate.
    + intros _ p Hin. exists e. split; [reflexivity |].
      apply (poster_update_unlinked e file form deleted np Hstep p Hin).
  - intros Hno. contradiction.
Qed.

Lemma failed_update_effects_witness :
  let r := put_event MoreSamples.update_refused
             {[ "e1"%string := Samples.uploaded_event ]} "e1"
             (Some Samples.upload) Samples.event_form in
  db r = {[ "e1"%string := Samples.uploaded_event ]}
  /\ (status (response r) = 404 ->
      ({[ "e1"%string := Samples.uploaded_event ]} : gmap string EventDoc)
         !! "e1"%string = None
      /\ unlinked r = unlink_upload (Some Samples.upload))
  /\ (status (response r) <> 404 ->
      forall p, In p (unlinked r) ->
        exists e, ({[ "e1"%string := Samples.uploaded_event ]}
                     : gmap string EventDoc) !! "e1"%string = Some e
          /\ pvalue (poster e) = Some p /\ String.prefix "/uploads/" p = true).
Proof.
  apply (failed_update_effects MoreSamples.update_refused
           {[ "e1"%string := Samples.uploaded_event ]} "e1"
           (Some Samples.upload) Samples.event_form).
  vm_compute. discriminate.
Defined.

(** X14. The update handler unlinks the previous poster file before it
    asks the store to update: when a file comes with the request, the
    previous poster value is a path below ['/uploads/'] and the store
    then rejects the update, the answer is a 400 or 500, the stored event
    still names the previous file, and that file has been handed to
    unlink. *)
Theorem update_store_failure
    (w : PutWorld) (events : gmap string EventDoc) (id : string)
    (f : File) (form : Form) (e : EventDoc) (err : DbError) (p : string) :
  reaches_poster_step w events id form e ->
  update_error w = Some err ->
  pvalue (poster e) = Some p ->
  String.prefix "/uploads/" p = true ->
  let r := put_event w events id (Some f) form in
  (status (response r) = 400 \/ status (response r) = 500)
  /\ db r !! id = Some e
  /\ unlinked r = [p].
Proof.
  intros Hreach Herr Hp Hpre r.
  destruct (put_event_poster_step w events id (Some f) form e Hreach) as (sp & Hr).
  fold r in Hr. rewrite Hr. unfold poster_update. rewrite Herr. simpl.
  split; [apply put_catch_status |].
  destruct Hreach as (_ & He & _). split; [exact He |].
  rewrite Hp. cbn [deleteOldPoster].
  rewrite (prefix_not_empty p Hpre), Hpre. reflexivity.
Qed.

Lemma update_store_failure_witness :
  let r := put_event MoreSamples.update_refused
             {[ "e1"%string := Samples.uploaded_event ]} "e1"
             (Some Samples.upload) Samples.event_form in
  (status (response r) = 400 \/ status (response r) = 500)
  /\ db r !! "e1"%string = Some Samples.uploaded_event
  /\ unlinked r = ["/uploads/posterFile-1690000000000-42.png"%string].
Proof.
  apply (update_store_failure MoreSamples.update_refused
           {[ "e1"%string := Samples.uploaded_event ]} "e1" Samples.upload
           Samples.event_form Samples.uploaded_event OtherError
           "/uploads/posterFile-1690000000000-42.png");
    try reflexivity.
  split; [reflexivity |]. split; [apply lookup_singleton_eq |].
  right. eexists. reflexivity.
Defined.

(** *** What a request leaves alone *)

Lemma serve_db_cases (events : gmap string EventDoc) (c : Call) :
  db (serve events c) = events
  \/ (exists doc, db (serve events c) = <[target c := doc]> events)
  \/ db (serve events c) = delete (target c) events.
Proof.
  destruct c as [w file form | w id file form | w id]; simpl.
  - destruct (Z.eq_dec (status (response (post_event w events file form))) 201)
      as [H201 | Hno].
    + destruct (post_event_created w events file form H201) as (doc & -> & _).
      right. left. exists doc. reflexivity.
    + left. apply post_event_rejected_db. exact Hno.
  - unfold put_event.
    destruct (find_error w); [left; reflexivity |].
    destruct (events !! id); [| left; reflexivity].
    destruct (match speakers form with
              | Some _ => option_map Some (parse_speakers (put_parsed w))
              | None => Some None
              end); [| left; reflexivity].
    destruct (poster_update _ file form) as [[deleted np] |]; [| left; reflexivity].
    destruct (update_error w); simpl; [left; reflexivity |].
    right. left. eexists. reflexivity.
  - unfold delete_event.
    destruct (del_find_error w); [left; reflexivity |].
    destruct (events !! id); [| left; reflexivity].
    destruct (delete_error w); simpl; [left; reflexivity |].
    right. right. reflexivity.
Qed.

(** X15. A create, update or delete changes no document but the one it
    is about: every other id of the collection keeps its document, also
    when the request fails. *)
Theorem other_events_untouched
    (events : gmap string EventDoc) (c : Call) (id' : string) :
  id' <> target c ->
  db (serve events c) !! id' = events !! id'.
Proof.
  intros Hne.
  destruct (serve_db_cases events c) as [-> | [(doc & ->) | ->]].
  - reflexivity.
  - apply lookup_insert_ne. congruence.
  - apply lookup_delete_ne. congruence.
Qed.

Lemma other_events_untouched_witness :
  db (serve {[ "e1"%string := Samples.uploaded_event ]}
        (Put Samples.update_accepted "e2" None Samples.renamed_form))
    !! "e1"%string
  = ({[ "e1"%string := Samples.uploaded_event ]} : gmap string EventDoc) !! "e1"%string.
Proof.
  apply (other_events_untouched {[ "e1"%string := Samples.uploaded_event ]}
           (Put Samples.update_accepted "e2" None Samples.renamed_form) "e1").
  discriminate.
Defined.

(** *** Speakers *)




(** X18. An update answered 200 replaces the stored speakers by the
    parsed list when the request has a speakers field (an empty text
    counts as one, so it must parse) and leaves them as they were when
    it has none. *)
Theorem updated_speakers
    (w : PutWorld) (events : gmap string EventDoc) (id : string)
    (file : option File) (form : Form) :
  let r := put_event w events id file form in
  status (response r) = 200 ->
  exists e e',
    events !! id = Some e
    /\ db r !! id = Some e'
    /\ (speakers form = None -> d_speakers e' = d_speakers e)
    /\ (speakers form <> None ->
        put_parsed w = Some (d_speakers e')
        /\ array_of_objects (d_speakers e') = true).
Proof.
  intros r. unfold r, put_event.
  destruct (find_error w) as [err |].
  { simpl. intros H. destruct (put_catch_status err) as [Hs | Hs];
      rewrite Hs in H; discriminate. }
  destruct (events !! id) as [e |]; [| simpl; discriminate].
  destruct (speakers form) as [text |].
  - unfold parse_speakers.
    destruct (put_parsed w) as [v |]; [| simpl; discriminate].
    destruct (array_of_objects v) eqn:Hshape; [| simpl; discriminate].
    simpl option_map.
    destruct (poster_update e file form) as [[deleted np] |]; [| simpl; discriminate].
    destruct (update_error w) as [err |]; simpl.
    { intros H. destruct (put_catch_status err) as [Hs | Hs];
        rewrite Hs in H; discriminate. }
    intros _. exists e. eexists. split; [reflexivity |].
    split; [apply lookup_insert_eq |]. split; [discriminate |].
    intros _. split; [reflexivity | exact Hshape].
  - destruct (poster_update e file form) as [[deleted np] |]; [| simpl; discriminate].
    destruct (update_error w) as [err |]; simpl.
    { intros H. destruct (put_catch_status err) as [Hs | Hs];
        rewrite Hs in H; discriminate. }
    intros _. exists e. eexists. split; [reflexivity |].
    split; [apply lookup_insert_eq |]. split; [reflexivity |].
    intros Hno. contradiction.
Qed.

Lemma updated_speakers_witness :
  exists e e',
    ({[ "e1"%string := Samples.uploaded_event ]} : gmap string EventDoc) !! "e1"%string
      = Some e
    /\ db (put_event Samples.update_accepted
             {[ "e1"%string := Samples.uploaded_event ]} "e1" None
             Samples.renamed_form) !! "e1"%string = Some e'
    /\ d_speakers e' = d_speakers e.
Proof.
  destruct (updated_speakers Samples.update_accepted
              {[ "e1"%string := Samples.uploaded_event ]} "e1" None
              Samples.renamed_form) as (e & e' & He & He' & Hkeep & _).
  - vm_compute. reflexivity.
  - exists e, e'. split; [exact He |]. split; [exact He' |].
    apply Hkeep. reflexivity.
Defined.

(** *** The posters of the collection *)

Lemma poster_update_as_written
    (e : EventDoc) (file : option File) (form : Form)
    (deleted : list string) (newPoster : Poster) :
  poster_update e file form = Some (deleted, Some newPoster) ->
  poster_as_written newPoster.
Proof.
  unfold poster_update. destruct file as [f |].
  - intros [= _ <-]. right. split; [reflexivity |]. eexists. reflexivity.
  - destruct (present (posterType form)); [| discriminate].
    destruct (field_is (posterType form) "url"); [| discriminate].
    intros [= _ <-]. left. reflexivity.
Qed.

(** X19. Whatever create, update and delete requests the event routes
    have served since the collection was empty, every stored poster is of
    kind url, or of kind upload with ['/uploads/' + a file name] as its
    value: the handlers never store another kind, and never a kind upload
    that names something outside the uploads directory. *)
Theorem stored_posters_as_written
    (calls : list Call) (id : string) (doc : EventDoc) :
  serve_all calls ∅ !! id = Some doc ->
  poster_as_written (poster doc).
Proof.
  assert (Hstep : forall events c,
            (forall i d, events !! i = Some d -> poster_as_written (poster d)) ->
            forall i d, db (serve events c) !! i = Some d ->
                        poster_as_written (poster d)).
  { intros events c Hinv i d.
    destruct (decide (i = target c)) as [-> | Hne].
    2:{ destruct (serve_db_cases events c) as [-> | [(doc' & ->) | ->]].
        - apply Hinv.
        - rewrite lookup_insert_ne by congruence. apply Hinv.
        - rewrite lookup_delete_ne by congruence. apply Hinv. }
    destruct c as [w file form | w tid file form | w tid]; simpl.
    - destruct (Z.eq_dec (status (response (post_event w events file form))) 201)
        as [H201 | Hno];
        [| rewrite post_event_rejected_db by exact Hno; apply Hinv].
      destruct (post_event_created w events file form H201) as (doc' & -> & Hposter).
      rewrite lookup_insert_eq. intros [= <-]. rewrite Hposter.
      destruct file as [f |].
      + right. split; [reflexivity |]. eexists. reflexivity.
      + destruct (field_is (posterType form) "url" && present (posterValue form))
          eqn:Hurl; [| left; reflexivity].
        apply andb_true_iff in Hurl. destruct Hurl as [Hurl _].
        apply field_is_true in Hurl. left. exact Hurl.
    - unfold put_event.
      destruct (find_error w); [apply Hinv |].
      destruct (events !! tid) as [e |] eqn:He; [| apply Hinv].
      destruct (match speakers form with
                | Some _ => option_map Some (parse_speakers (put_parsed w))
                | None => Some None
                end); [| apply Hinv].
      destruct (poster_update e file form) as [[deleted np] |] eqn:Hupd;
        [| apply Hinv].
      destruct (update_error w); [apply Hinv |]. simpl.
      rewrite lookup_insert_eq. intros [= <-]. simpl.
      destruct np as [newPoster |].
      + apply (poster_update_as_written e file form deleted newPoster Hupd).
      + apply (Hinv tid e He).
    - unfold delete_event.
      destruct (del_find_error w); [apply Hinv |].
      destruct (events !! tid) as [e |]; [| apply Hinv].
      destruct (delete_error w); [apply Hinv |]. simpl.
      rewrite lookup_delete_eq. discriminate. }
  assert (Hall : forall cs events,
            (forall i d, events !! i = Some d -> poster_as_written (poster d)) ->
            forall i d, serve_all cs events !! i = Some d ->
                        poster_as_written (poster d)).
  { induction cs as [| c cs IH]; intros events Hinv; simpl; [exact Hinv |].
    apply IH. apply Hstep. exact Hinv. }
  apply Hall. intros i d Hd. rewrite lookup_empty in Hd. discriminate.
Qed.

Lemma stored_posters_as_written_witness :
  poster_as_written (poster Samples.linked_event).
Proof.
  apply (stored_posters_as_written
           [Post Samples.store_accepts None Samples.linking_form] "e1").
  vm_compute. reflexivity.
Defined.

End EventHandlerFacts.

(* ===================================================================== *)
(** ** Properties of the team-member handlers *)
(* ===================================================================== *)

Module TeamHandlerFacts.

Import TeamRoutes.
Import EventRoutesFacts.

(** *** Create *)

Lemma post_member_created
    (w : PostWorld) (members : gmap string TeamMemberDoc) (file : option File)
    (form : Form) :
  EventRoutes.status (response (post_member w members file form)) = 201 ->
  exists doc,
    db (post_member w members file form) = <[new_id w := doc]> members
    /\ d_displayOrder doc = display_order (displayOrder form) (parsed_order w)
    /\ photo doc =
       match file with
       | Some f => {| ptype := Some "upload";
                      pvalue := Some ("/uploads/" ++ filename f) |}
       | None =>
           if field_is (photoType form) "url" && present (photoValue form)
           then {| ptype := photoType form; pvalue := photoValue form |}
           else if field_is (photoType form) "import" && present (photoValue form)
           then {| ptype := photoType form; pvalue := photoValue form |}
           else {| ptype := Some "url"; pvalue := Some placeholder |}
       end.
Proof.
  unfold post_member.
  destruct file as [f |];
    [| destruct (field_is (photoType form) "url" && present (photoValue form));
       [| destruct (field_is (photoType form) "import"
                    && present (photoValue form))]];
    (destruct (negb (present (name form)) || negb (present (position form))
              || negb (present (academicYear form))); [simpl; discriminate |]);
    (destruct (save_error w) as [e |]; [destruct e; simpl; discriminate |]);
    intros _; eexists; repeat split; reflexivity.
Qed.

(** X20. A team-member create answered 201 has stored a photo decided
    in this order: kind upload with ['/uploads/' + file name] when a file
    came; else kind url with the photoValue when photoType is url and a
    photoValue was sent; else kind import with the photoValue when
    photoType is import and a photoValue was sent; else kind url with the
    placeholder address, as for a request without any photo field. *)
Theorem member_photo_precedence
    (w : PostWorld) (members : gmap string TeamMemberDoc) (file : option File)
    (form : Form) :
  let r := post_member w members file form in
  EventRoutes.status (response r) = 201 ->
  exists doc,
    db r !! new_id w = Some doc
    /\ (forall f, file = Some f ->
          photo doc = {| ptype := Some "upload";
                         pvalue := Some ("/uploads/" ++ filename f) |})
    /\ (file = None -> photoType form = Some "url"%string ->
        present (photoValue form) = true ->
          photo doc = {| ptype := Some "url"; pvalue := photoValue form |})
    /\ (file = None -> photoType form = Some "import"%string ->
        present (photoValue form) = true ->
          photo doc = {| ptype := Some "import"; pvalue := photoValue form |})
    /\ (file = None ->
        (photoType form <> Some "url"%string
         /\ photoType form <> Some "import"%string)
        \/ present (photoValue form) = false ->
          photo doc = {| ptype := Some "url";
                         pvalue := Some "https://via.placeholder.com/150" |}).
Proof.
  intros r H201.
  destruct (post_member_created w members file form H201)
    as (doc & Hdb & _ & Hphoto).
  exists doc. fold r in Hdb. rewrite Hdb, Hphoto.
  split; [apply lookup_insert_eq |].
  split; [intros f ->; reflexivity |].
  split; [| split].
  - intros -> Htype Hvalue. rewrite Htype, Hvalue. reflexivity.
  - intros -> Htype Hvalue. rewrite Htype, Hvalue. reflexivity.
  - intros -> [[Hurl Himport] | Hvalue].
    + destruct (field_is (photoType form) "url") eqn:H1;
        [apply field_is_true in H1; contradiction |].
      destruct (field_is (photoType form) "import") eqn:H2;
        [apply field_is_true in H2; contradiction |].
      reflexivity.
    + rewrite Hvalue, !andb_false_r. reflexivity.
Qed.

Lemma member_photo_precedence_witness :
  exists doc,
    db (post_member MoreSamples.member_accepted ∅ None MoreSamples.position_form)
      !! "m1"%string = Some doc
    /\ photo doc = {| ptype := Some "url";
                      pvalue := Some "https://via.placeholder.com/150" |}.
Proof.
  destruct (member_photo_precedence MoreSamples.member_accepted ∅ None
              MoreSamples.position_form eq_refl) as (doc & Hdoc & _ & _ & _ & Hnone).
  exists doc. split; [exact Hdoc |].
  apply Hnone; [reflexivity |]. right. reflexivity.
Defined.

(** *** Update *)

Lemma put_member_updated
    (w : PutWorld) (members : gmap string TeamMemberDoc) (id : string)
    (file : option File) (form : Form) :
  EventRoutes.status (response (put_member w members id file form)) = 200 ->
  exists old deleted newPhoto,
    members !! id = Some old
    /\ photo_update old file form = Some (deleted, newPhoto)
    /\ unlinked (put_member w members id file form) = deleted
    /\ db (put_member w members id file form)
       = <[id := apply_set (omit_undefined w) old
                   {| u_name := name form;
                      u_idNumber := idNumber form;
                      u_position := position form;
                      u_academicYear := academicYear form;
                      u_displayOrder := display_order (displayOrder form) (put_parsed_order w);
                      u_linkedinId := linkedinId form;
                      u_phoneNumber := phoneNumber form;
                      u_isPhoneNumberPublic :=
                        public_flag (isPhoneNumberPublic form);
                      u_telegramLink := telegramLink form;
                      u_isTelegramLinkPublic :=
                        public_flag (isTelegramLinkPublic form);
                      u_photo := newPhoto |}]> members.
Proof.
  unfold put_member.
  destruct (find_error w) as [err |]; [destruct err; simpl; discriminate |].
  destruct (members !! id) as [old |] eqn:Hold; [| simpl; discriminate].
  destruct (photo_update old file form) as [[deleted newPhoto] |] eqn:Hstep;
    [| simpl; discriminate].
  destruct (update_error w) as [err |]; [destruct err; simpl; discriminate |].
  intros _. exists old, deleted, newPhoto.
  split; [reflexivity |]. split; [exact Hstep |]. split; reflexivity.
Qed.

Lemma display_order_cases (displayOrder : jsval) (parsed : option Z) :
  (display_order displayOrder parsed = 0 <-> displayOrder = JNum 0)
  /\ (forall n, displayOrder = JNum n -> display_order displayOrder parsed = n)
  /\ ((forall n, displayOrder <> JNum n) ->
      (parsed = None \/ parsed = Some 0 -> display_order displayOrder parsed = 99)
      /\ (forall m, parsed = Some m -> m <> 0 ->
            display_order displayOrder parsed = m)).
Proof.
  assert (Hparsed : match parsed with
                    | Some n => if n =? 0 then 99 else n
                    | None => 99
                    end <> 0).
  { destruct parsed as [n |]; [| discriminate].
    destruct (n =? 0) eqn:Hz; [discriminate |]. apply Z.eqb_neq. exact Hz. }
  split; [| split].
  - destruct displayOrder as [| | b | n | t | items | props]; simpl;
      try (split; [intros Hzero; contradiction | discriminate]).
    split; [intros -> | intros [= ->]]; reflexivity.
  - intros n ->. reflexivity.
  - intros Hother.
    destruct displayOrder as [| | b | n | t | items | props]; simpl;
      try (exfalso; apply (Hother n); reflexivity);
      (split;
       [intros [-> | ->]; reflexivity
       | intros m -> Hm; apply Z.eqb_neq in Hm; rewrite Hm; reflexivity]).
Qed.


(** X21. The display order a create answered 201 or an update answered
    200 stores is 0 exactly when the request carried the display order
    as the number 0, whatever [parseInt] returns: a number is stored as
    it is, and any other value is stored as the integer [parseInt] reads
    from it, with 99 in place of 0 and of NaN. *)
Theorem display_order_zero_only_as_number
    (pw : PostWorld) (uw : PutWorld) (members : gmap string TeamMemberDoc)
    (id : string) (file : option File) (form : Form) :
  (EventRoutes.status (response (post_member pw members file form)) = 201 ->
   exists doc,
     db (post_member pw members file form) !! new_id pw = Some doc
     /\ (d_displayOrder doc = 0 <-> displayOrder form = JNum 0)
     /\ (forall n, displayOrder form = JNum n -> d_displayOrder doc = n)
     /\ ((forall n, displayOrder form <> JNum n) ->
         (parsed_order pw = None \/ parsed_order pw = Some 0 ->
          d_displayOrder doc = 99)
         /\ (forall m, parsed_order pw = Some m -> m <> 0 ->
               d_displayOrder doc = m)))
  /\ (EventRoutes.status (response (put_member uw members id file form)) = 200 ->
      exists doc,
        db (put_member uw members id file form) !! id = Some doc
        /\ (d_displayOrder doc = 0 <-> displayOrder form = JNum 0)
        /\ (forall n, displayOrder form = JNum n -> d_displayOrder doc = n)
        /\ ((forall n, displayOrder form <> JNum n) ->
            (put_parsed_order uw = None \/ put_parsed_order uw = Some 0 ->
             d_displayOrder doc = 99)
            /\ (forall m, put_parsed_order uw = Some m -> m <> 0 ->
                  d_displayOrder doc = m))).
Proof.
  split.
  - intros H201.
    destruct (post_member_created pw members file form H201)
      as (doc & Hdb & Hord & _).
    exists doc. rewrite Hdb, Hord.
    split; [apply lookup_insert_eq | apply display_order_cases].
  - intros H200.
    destruct (put_member_updated uw members id file form H200)
      as (old & deleted & np & _ & _ & _ & Hdb).
    eexists. rewrite Hdb. split; [apply lookup_insert_eq |].
    apply display_order_cases.
Qed.

Lemma display_order_zero_only_as_number_witness :
  (exists doc,
     db (post_member MoreSamples.order_zero_accepted ∅ None
           MoreSamples.order_zero_json) !! "m1"%string = Some doc
     /\ d_displayOrder doc = 0)
  /\ (exists doc,
        db (post_member MoreSamples.order_zero_accepted ∅ None
              MoreSamples.order_zero_form) !! "m1"%string = Some doc
        /\ d_displayOrder doc = 99).
Proof.
  split.
  - destruct (display_order_zero_only_as_number MoreSamples.order_zero_accepted
                MoreSamples.member_update_accepted ∅ "m1" None
                MoreSamples.order_zero_json) as [Hpost _].
    destruct (Hpost eq_refl) as (doc & Hdoc & Hzero & _).
    exists doc. split; [exact Hdoc |]. apply Hzero. reflexivity.
  - destruct (display_order_zero_only_as_number MoreSamples.order_zero_accepted
                MoreSamples.member_update_accepted ∅ "m1" None
                MoreSamples.order_zero_form) as [Hpost _].
    destruct (Hpost eq_refl) as (doc & Hdoc & _ & _ & Htext).
    exists doc. split; [exact Hdoc |].
    assert (Hnot : forall n, displayOrder MoreSamples.order_zero_form <> JNum n)
      by (intros n; discriminate).
    destruct (Htext Hnot) as [Hdefault _].
    apply Hdefault. right. reflexivity.
Defined.



(** X23. In an update answered 200: when a file came, the file the
    previous photo value names has been handed to unlink exactly when
    that value is a path below ['/uploads/'], and the photo is of kind
    upload with the new path; when no file came and the photoType is url
    or import, the previous file has been handed to unlink exactly when
    the previous kind was upload and its value is below ['/uploads/'],
    and the photo has the declared kind with the photoValue of the
    request. *)
Theorem member_photo_update
    (w : PutWorld) (members : gmap string TeamMemberDoc) (id : string)
    (file : option File) (form : Form) :
  let r := put_member w members id file form in
  EventRoutes.status (response r) = 200 ->
  exists old doc,
    members !! id = Some old
    /\ db r !! id = Some doc
    /\ (forall f, file = Some f ->
          (forall p, In p (unlinked r)
             <-> pvalue (photo old) = Some p /\ String.prefix "/uploads/" p = true)
          /\ photo doc = {| ptype := Some "upload";
                            pvalue := Some ("/uploads/" ++ filename f) |})
    /\ (forall kind, file = None -> photoType form = Some kind ->
        kind = "url"%string \/ kind = "import"%string ->
          (forall p, In p (unlinked r)
             <-> ptype (photo old) = Some "upload"%string
                 /\ pvalue (photo old) = Some p
                 /\ String.prefix "/uploads/" p = true)
          /\ photo doc = {| ptype := Some kind; pvalue := photoValue form |}).
Proof.
  intros r H200.
  destruct (put_member_updated w members id file form H200)
    as (old & deleted & np & Hold & Hstep & Hun & Hdb).
  fold r in Hun, Hdb. exists old. eexists. rewrite Hdb, Hun.
  split; [exact Hold |]. split; [apply lookup_insert_eq |].
  assert (Hkind : forall p,
            In p (if field_is (ptype (photo old)) "upload"
                  then deleteOldPoster (pvalue (photo old)) else [])
            <-> ptype (photo old) = Some "upload"%string
                /\ pvalue (photo old) = Some p
                /\ String.prefix "/uploads/" p = true).
  { intros p. destruct (field_is (ptype (photo old)) "upload") eqn:Hk.
    - apply field_is_true in Hk. rewrite deleteOldPoster_In. tauto.
    - split; [intros [] |]. intros (Hup & _).
      apply field_is_true in Hup. congruence. }
  split.
  - intros f ->. unfold photo_update in Hstep. injection Hstep as <- <-.
    split; [intros p; apply deleteOldPoster_In | reflexivity].
  - intros kind -> Htype Hcase. unfold photo_update in Hstep.
    rewrite Htype in Hstep. destruct Hcase as [-> | ->]; simpl in Hstep;
      injection Hstep as <- <-; (split; [exact Hkind | reflexivity]).
Qed.

Lemma member_photo_update_witness :
  exists doc,
    db (put_member MoreSamples.member_update_accepted
          {[ "m1"%string := MoreSamples.stored_member ]} "m1" None
          MoreSamples.import_form) !! "m1"%string = Some doc
    /\ photo doc = {| ptype := Some "import"; pvalue := Some "ada_profile" |}
    /\ In "/uploads/photo-1690000000000-7.jpg"%string
         (unlinked (put_member MoreSamples.member_update_accepted
                      {[ "m1"%string := MoreSamples.stored_member ]} "m1" None
                      MoreSamples.import_form)).
Proof.
  destruct (member_photo_update MoreSamples.member_update_accepted
              {[ "m1"%string := MoreSamples.stored_member ]} "m1" None
              MoreSamples.import_form)
    as (old & doc & Hold & Hdoc & _ & Hdeclared).
  - vm_compute. reflexivity.
  - destruct (Hdeclared "import"%string eq_refl eq_refl (or_intror eq_refl))
      as [Hun Hphoto].
    exists doc. split; [exact Hdoc |]. split; [exact Hphoto |].
    rewrite lookup_singleton_eq in Hold. injection Hold as <-.
    apply Hun. repeat split; reflexivity.
Defined.

(** *** Delete *)

(** X24. When the member of a delete request is found, the file of its
    photo is handed to unlink exactly when the photo is of kind upload
    with a value below ['/uploads/'], before and whether or not the store
    then deletes the member: on success the member is gone, on a store
    error the answer is a 400 or 500 and the member stays. *)
Theorem delete_member_cascade
    (w : DeleteWorld) (members : gmap string TeamMemberDoc) (id : string)
    (m : TeamMemberDoc) :
  del_find_error w = None ->
  members !! id = Some m ->
  let r := delete_member w members id in
  (forall p, In p (unlinked r)
     <-> ptype (photo m) = Some "upload"%string
         /\ pvalue (photo m) = Some p /\ String.prefix "/uploads/" p = true)
  /\ (delete_error w = None ->
      EventRoutes.status (response r) = 200 /\ db r = delete id members)
  /\ (delete_error w <> None ->
      (EventRoutes.status (response r) = 400
       \/ EventRoutes.status (response r) = 500)
      /\ db r = members).
Proof.
  intros Hfind Hm r. unfold r, delete_member. rewrite Hfind, Hm.
  split; [| split].
  - intros p.
    assert (Hlist : forall l, In p l <-> In p
              (unlinked (match delete_error w with
                         | Some err => {| response := delete_catch err;
                                          db := members; unlinked := l |}
                         | None => {| response :=
                                        {| EventRoutes.status := 200;
                                           EventRoutes.message :=
                                             "Team member deleted successfully!" |};
                                      db := delete id members; unlinked := l |}
                         end))).
    { intros l. destruct (delete_error w); reflexivity. }
    rewrite <- Hlist.
    destruct (field_is (ptype (photo m)) "upload") eqn:Hkind; simpl.
    + apply field_is_true in Hkind.
      destruct (present (pvalue (photo m))) eqn:Hpresent.
      * rewrite deleteOldPoster_In. tauto.
      * split; [intros [] |]. intros (_ & Hp & Hpre).
        rewrite Hp in Hpresent. simpl in Hpresent.
        rewrite (prefix_not_empty p Hpre) in Hpresent. discriminate.
    + split; [intros [] |]. intros (Hup & _).
      apply field_is_true in Hup. congruence.
  - intros ->. split; reflexivity.
  - intros Herr. destruct (delete_error w) as [err |]; [| contradiction].
    split; [destruct err; simpl; auto | reflexivity].
Qed.

Lemma delete_member_cascade_witness :
  let r := delete_member MoreSamples.member_delete_refused
             {[ "m1"%string := MoreSamples.stored_member ]} "m1" in
  In "/uploads/photo-1690000000000-7.jpg"%string (unlinked r)
  /\ db r = {[ "m1"%string := MoreSamples.stored_member ]}.
Proof.
  destruct (delete_member_cascade MoreSamples.member_delete_refused
              {[ "m1"%string := MoreSamples.stored_member ]} "m1"
              MoreSamples.stored_member eq_refl (lookup_singleton_eq _ _))
    as (Hun & _ & Hfail).
  split.
  - apply Hun. repeat split; reflexivity.
  - apply Hfail. discriminate.
Defined.

End TeamHandlerFacts.

(* ===================================================================== *)
(** ** Properties of the upload filter and of the error handlers *)
(* ===================================================================== *)

Module UploadFacts.

Import MulterConfig.
Import Server.

Lemma prefix_true (w s : string) :
  String.prefix w s = true <-> exists post, s = (w ++ post)%string.
Proof.
  revert s. induction w as [| c w IH]; intros s.
  - split; [intros _; exists s; reflexivity |].
    intros _. destruct s; reflexivity.
  - destruct s as [| d s]; simpl;
      [split; [discriminate | intros [post [=]]] |].
    destruct (ascii_dec c d) as [<- | Hne].
    + rewrite IH. split; intros [post H]; exists post.
      * rewrite H. reflexivity.
      * simpl in H. injection H as H. exact H.
    + split; [discriminate |]. intros [post H]. simpl in H.
      injection H as Hc _. congruence.
Qed.

Lemma contains_true (w s : string) :
  contains w s = true <-> exists pre post, s = (pre ++ w ++ post)%string.
Proof.
  induction s as [| c s IH].
  - cbn [contains]. rewrite orb_false_r, prefix_true. split.
    + intros [post H]. exists EmptyString, post. exact H.
    + intros (pre & post & H). destruct pre; [exists post; exact H | discriminate].
  - cbn [contains]. rewrite orb_true_iff, prefix_true, IH. split.
    + intros [[post H] | (pre & post & H)].
      * exists EmptyString, post. exact H.
      * exists (String c pre), post. rewrite H. reflexivity.
    + intros (pre & post & H). destruct pre as [| d pre].
      * left. exists post. exact H.
      * right. injection H as _ H. exists pre, post. exact H.
Qed.

(** A text has one of the four words somewhere in it. *)
Lemma filetypes_test_true (s : string) :
  filetypes_test s = true
  <-> exists word pre post,
        In word ["jpeg"; "jpg"; "png"; "gif"]%string
        /\ s = (pre ++ word ++ post)%string.
Proof.
  unfold filetypes_test. rewrite !orb_true_iff, !contains_true. split.
  - intros [[[H | H] | H] | H]; destruct H as (pre & post & H);
      eexists; exists pre, post; (split; [| exact H]); simpl; auto.
  - intros (word & pre & post & Hin & H). simpl in Hin.
    destruct Hin as [<- | [<- | [<- | [<- | []]]]]; eauto 10.
Qed.

(** X25. The upload filter accepts a file exactly when its mimetype and
    its lower-cased extension each contain one of the words jpeg, jpg,
    png, gif somewhere in them (the test is not anchored, so the word
    need not be the whole extension or subtype); every other file is
    refused with the fixed message. *)
Theorem fileFilter_accepts (file : Incoming) :
  (fileFilter file = Accept
   <-> (exists word pre post,
          In word ["jpeg"; "jpg"; "png"; "gif"]%string
          /\ mimetype file = (pre ++ word ++ post)%string)
       /\ (exists word pre post,
             In word ["jpeg"; "jpg"; "png"; "gif"]%string
             /\ lowered_extname file = (pre ++ word ++ post)%string))
  /\ (fileFilter file <> Accept ->
      fileFilter file = Refuse "Only images (JPEG, JPG, PNG, GIF) are allowed!").
Proof.
  unfold fileFilter. rewrite <- !filetypes_test_true.
  destruct (filetypes_test (mimetype file)), (filetypes_test (lowered_extname file));
    simpl; split; try (intros H; contradiction); try reflexivity;
    (split; [discriminate | intros [H1 H2]; discriminate]) || (split; auto).
Qed.

Lemma fileFilter_accepts_witness :
  fileFilter MoreSamples.odd_picture = Accept
  /\ fileFilter MoreSamples.pdf_file
     = Refuse "Only images (JPEG, JPG, PNG, GIF) are allowed!".
Proof.
  split.
  - apply (fileFilter_accepts MoreSamples.odd_picture). split.
    + exists "png"%string, "image/"%string, EmptyString.
      split; [simpl; auto | reflexivity].
    + exists "png"%string, "."%string, "x"%string.
      split; [simpl; auto | reflexivity].
  - apply (fileFilter_accepts MoreSamples.pdf_file). discriminate.
Defined.

(** X26. Every error that reaches the two error handlers of the server
    is answered: an error of multer itself with 400 (a fixed text for a
    file that is too large and for an unexpected field, the error's own
    message after the words Multer error otherwise), anything else with
    500 and the error's message, or a fixed text when it has none. The
    refusal of the upload filter is not an error of multer, so a file of
    the wrong type is answered 500 with the filter's message. *)
Theorem errors_are_answered (err : AppError) (file : Incoming) :
  (forall code message, err = MulterError code message ->
     EventRoutes.status (handle_error err) = 400
     /\ (code = "LIMIT_FILE_SIZE"%string ->
         EventRoutes.message (handle_error err)
         = "File size too large. Maximum 5MB allowed."%string)
     /\ (code = "LIMIT_UNEXPECTED_FILE"%string ->
         EventRoutes.message (handle_error err)
         = "Too many files uploaded or unexpected field name."%string)
     /\ (code <> "LIMIT_FILE_SIZE"%string ->
         code <> "LIMIT_UNEXPECTED_FILE"%string ->
         EventRoutes.message (handle_error err)
         = ("Multer error: " ++ message)%string))
  /\ (forall message, err = OtherError message ->
        EventRoutes.status (handle_error err) = 500
        /\ (present message = true ->
            Some (EventRoutes.message (handle_error err)) = message)
        /\ (present message = false ->
            EventRoutes.message (handle_error err)
            = "An unexpected server error occurred."%string))
  /\ (fileFilter file <> Accept ->
      exists refusal,
        filter_error (fileFilter file) = Some refusal
        /\ handle_error refusal
           = {| EventRoutes.status := 500;
                EventRoutes.message :=
                  "Only images (JPEG, JPG, PNG, GIF) are allowed!" |}).
Proof.
  split; [| split].
  - intros code message ->. unfold handle_error, multer_error_handler.
    destruct (String.eqb code "LIMIT_FILE_SIZE") eqn:Hsize.
    { apply String.eqb_eq in Hsize. subst code. simpl.
      repeat split; try reflexivity; try discriminate. intros H; contradiction. }
    destruct (String.eqb code "LIMIT_UNEXPECTED_FILE") eqn:Hfield.
    { apply String.eqb_eq in Hfield. subst code. simpl.
      repeat split; try reflexivity; try discriminate.
      intros _ H; contradiction. }
    apply String.eqb_neq in Hsize, Hfield. simpl.
    repeat split; try reflexivity; intros; contradiction.
  - intros message ->. unfold handle_error. simpl.
    split; [reflexivity |]. destruct message as [m |]; simpl.
    + destruct (String.eqb m EmptyString); simpl; split;
        first [discriminate | reflexivity | intros; reflexivity].
    + split; [discriminate | reflexivity].
  - unfold fileFilter.
    destruct (filetypes_test (mimetype file)
              && filetypes_test (lowered_extname file)); [contradiction |].
    intros _. eexists. split; reflexivity.
Qed.

Lemma errors_are_answered_witness :
  exists refusal,
    filter_error (fileFilter MoreSamples.pdf_file) = Some refusal
    /\ handle_error refusal
       = {| EventRoutes.status := 500;
            EventRoutes.message :=
              "Only images (JPEG, JPG, PNG, GIF) are allowed!" |}.
Proof.
  apply (errors_are_answered (OtherError None) MoreSamples.pdf_file).
  discriminate.
Defined.

End UploadFacts.
